(** * telegram_bot.py: the image delivery bot, embedded and verified

    The handlers of [src/telegram_bot.py] are embedded as computations in a
    small state-and-exception monad.  The state is the per-chat dictionary
    [context.user_data] together with the chronological trace of every call
    the handler makes to the outside world (record store, chat transport,
    HTTP fetch, clock, logger).  The outside world is a record of oracles,
    each answering from the history of calls made so far, so a lookup may
    answer differently the second time it is asked. *)

From Stdlib Require Import ZArith String Ascii List DecimalString.
From stdpp Require Import base option list gmap strings.
Import ListNotations.
Local Open Scope string_scope.
Local Open Scope Z_scope.

(** ** Data model *)

(** One element of a record's [image_links] list.  The code tells three shapes
    apart: [isinstance(img, str)], [isinstance(img, dict)], and anything
    else.  A dict is a finite map from field names to the strings the record
    store holds; any other value is kept by its printed form. *)
Inductive image_entry : Type :=
| ImgStr (url : string)
| ImgDict (fields : gmap string string)
| ImgOther (repr : string).

#[global] Instance image_entry_eq_dec : EqDecision image_entry.
Proof. solve_decision. Defined.

(** A document of the collection, as [collection.find_one] returns it.
    [_id] and [access_key] are always there; [name] and [image_links] are read
    with [.get] and may be missing. *)
Record user_doc : Type := {
  _id : string;
  access_key : string;
  name : option string;
  image_links : option (list image_entry)
}.

#[global] Instance user_doc_eq_dec : EqDecision user_doc.
Proof. solve_decision. Defined.

(** What [datetime.now()] returns: the calendar day that
    [strftime('%Y-%m-%d')] prints, and the time within it. *)
Record datetime : Type := { ymd : string; clock : Z }.

Definition strftime_ymd (d : datetime) : string := ymd d.

(** [context.user_data]: a dict with a fixed set of keys, each present
    ([Some]) or absent ([None]). *)
Record UserData : Type := {
  activation_key : option string;
  user_id : option string;
  user_name : option string;
  user_data : option user_doc;
  image_message_ids : option (list Z);
  last_updated : option datetime
}.

(** [context.user_data.clear()] leaves the empty dict. *)
Definition cleared : UserData :=
  {| activation_key := None; user_id := None; user_name := None;
     user_data := None; image_message_ids := None; last_updated := None |}.

Definition set_activation_key (v : string) (u : UserData) : UserData :=
  {| activation_key := Some v; user_id := user_id u; user_name := user_name u;
     user_data := user_data u; image_message_ids := image_message_ids u;
     last_updated := last_updated u |}.

Definition set_user_id (v : string) (u : UserData) : UserData :=
  {| activation_key := activation_key u; user_id := Some v;
     user_name := user_name u; user_data := user_data u;
     image_message_ids := image_message_ids u;
     last_updated := last_updated u |}.

Definition set_user_name (v : string) (u : UserData) : UserData :=
  {| activation_key := activation_key u; user_id := user_id u;
     user_name := Some v; user_data := user_data u;
     image_message_ids := image_message_ids u;
     last_updated := last_updated u |}.

Definition set_user_data (v : user_doc) (u : UserData) : UserData :=
  {| activation_key := activation_key u; user_id := user_id u;
     user_name := user_name u; user_data := Some v;
     image_message_ids := image_message_ids u;
     last_updated := last_updated u |}.

Definition set_image_message_ids (v : list Z) (u : UserData) : UserData :=
  {| activation_key := activation_key u; user_id := user_id u;
     user_name := user_name u; user_data := user_data u;
     image_message_ids := Some v; last_updated := last_updated u |}.

Definition set_last_updated (v : datetime) (u : UserData) : UserData :=
  {| activation_key := activation_key u; user_id := user_id u;
     user_name := user_name u; user_data := user_data u;
     image_message_ids := image_message_ids u; last_updated := Some v |}.

(** ** Exceptions, outcomes and the trace of external calls *)

(** An exception is known by its message, which is all the code reads of it
    ([str(e)]). *)
Definition exn : Type := string.

Inductive outcome (A : Type) : Type :=
| Returned (a : A)
| Raised (e : exn).
Arguments Returned {A} a.
Arguments Raised {A} e.

(** An inline keyboard: rows of buttons, each a label and its callback
    data. *)
Definition keyboard : Type := list (list (string * string)).

Definition bytes : Type := list Byte.byte.

Inductive log_level : Type := Warning | Error.

(** Every call that leaves the handler, with the answer it got. *)
Inductive event : Type :=
| EvFindOne (key : string) (r : option user_doc)
| EvNow (t : datetime)
| EvAnswer (r : outcome unit)
| EvReplyText (text : string) (markup : keyboard) (r : outcome Z)
| EvEditMessageText (text : string) (markup : keyboard) (r : outcome Z)
| EvDeleteMessage (chat_id message_id : Z) (r : outcome unit)
| EvSendPhoto (chat_id : Z) (photo : bytes) (caption : string) (r : outcome Z)
| EvSendMessage (chat_id : Z) (text : string) (markup : keyboard)
                (r : outcome Z)
| EvRequestsGet (url : string) (r : outcome bytes)
| EvLog (level : log_level) (msg : string).

(** The collaborators.  Each oracle sees the calls made so far. *)
Record env : Type := {
  collection_find_one : list event -> string -> option user_doc;
  datetime_now : list event -> datetime;
  query_answer : list event -> outcome unit;
  message_reply_text : list event -> string -> keyboard -> outcome Z;
  query_edit_message_text : list event -> string -> keyboard -> outcome Z;
  bot_delete_message : list event -> Z -> Z -> outcome unit;
  bot_send_photo : list event -> Z -> bytes -> string -> outcome Z;
  bot_send_message : list event -> Z -> string -> keyboard -> outcome Z;
  requests_get : list event -> string -> outcome bytes
}.

Record world : Type := { session : UserData; trace : list event }.

Definition log_event (ev : event) (w : world) : world :=
  {| session := session w; trace := trace w ++ [ev] |}.

(** ** The handler monad *)

Definition M (A : Type) : Type := world -> outcome A * world.

#[global] Instance M_ret : MRet M := fun A a w => (Returned a, w).

#[global] Instance M_bind : MBind M := fun A B k m w =>
  match m w with
  | (Returned a, w') => k a w'
  | (Raised e, w') => (Raised e, w')
  end.

(** [try: body / except Exception as e: handler e] *)
Definition try_except {A : Type} (body : M A) (handler : exn -> M A) : M A :=
  fun w =>
    match body w with
    | (Returned a, w') => (Returned a, w')
    | (Raised e, w') => handler e w'
    end.

Definition get_session : M UserData := fun w => (Returned (session w), w).

Definition modify_session (f : UserData -> UserData) : M unit := fun w =>
  (Returned tt, {| session := f (session w); trace := trace w |}).

(** An external call that may raise: ask the oracle, record the answer. *)
Definition call {A : Type} (oracle : list event -> outcome A)
    (ev : outcome A -> event) : M A := fun w =>
  let r := oracle (trace w) in (r, log_event (ev r) w).

(** An external call that always answers. *)
Definition ask {A : Type} (oracle : list event -> A) (ev : A -> event) : M A :=
  fun w => let r := oracle (trace w) in (Returned r, log_event (ev r) w).

Definition logger (level : log_level) (msg : string) : M unit := fun w =>
  (Returned tt, log_event (EvLog level msg) w).

(** ** Strings *)

(** Python prints a [len] or a counter in decimal. *)
Definition str_of_nat (n : nat) : string :=
  NilEmpty.string_of_uint (Nat.to_uint n).

Definition str_of_Z (z : Z) : string :=
  NilEmpty.string_of_int (Z.to_int z).

(** A [string] holds the UTF-8 encoding of a Python [str]. *)
Definition utf8 (bytes : list nat) : list ascii := map ascii_of_nat bytes.

(** The characters [str.strip()] removes, those [str.isspace()] accepts,
    each by its UTF-8 bytes: U+0009 to U+000D, U+001C to U+001F, U+0020,
    U+0085, U+00A0, U+1680, U+2000 to U+200A, U+2028, U+2029, U+202F, U+205F
    and U+3000. *)
Definition whitespace : list (list ascii) :=
  (map (fun b => utf8 [b]) [9; 10; 11; 12; 13; 28; 29; 30; 31; 32]
   ++ [utf8 [194; 133]; utf8 [194; 160]; utf8 [225; 154; 128]]
   ++ map (fun b => utf8 [226; 128; b]) (seq 128 11)
   ++ [utf8 [226; 128; 168]; utf8 [226; 128; 169]; utf8 [226; 128; 175];
       utf8 [226; 129; 159]; utf8 [227; 128; 128]])%nat%list.

(** What is left of [l] after its prefix [w], when it begins with [w]. *)
Fixpoint drop_prefix (w l : list ascii) : option (list ascii) :=
  match w, l with
  | [], _ => Some l
  | a :: w', b :: l' => if Ascii.eqb a b then drop_prefix w' l' else None
  | _ :: _, [] => None
  end.

(** What is left of [l] after the one of [ws] it begins with, if any. *)
Fixpoint drop_first (ws : list (list ascii)) (l : list ascii)
    : option (list ascii) :=
  match ws with
  | [] => None
  | w :: rest =>
      match drop_prefix w l with
      | Some r => Some r
      | None => drop_first rest l
      end
  end.

(** Drop leading members of [ws] from [l], as long as there are any; each
    round drops at least one byte, so [length l] rounds are enough. *)
Fixpoint lstrip_by (ws : list (list ascii)) (fuel : nat) (l : list ascii)
    : list ascii :=
  match fuel with
  | O => l
  | S n =>
      match drop_first ws l with
      | Some r => lstrip_by ws n r
      | None => l
      end
  end.

Definition lstrip_bytes (l : list ascii) : list ascii :=
  lstrip_by whitespace (length l) l.

(** Trailing whitespace is leading whitespace of the reversed bytes. *)
Definition rstrip_bytes (l : list ascii) : list ascii :=
  rev (lstrip_by (map (@rev ascii) whitespace) (length l) (rev l)).

Definition lstrip (s : string) : string :=
  string_of_list_ascii (lstrip_bytes (list_ascii_of_string s)).

Definition rstrip (s : string) : string :=
  string_of_list_ascii (rstrip_bytes (list_ascii_of_string s)).

Definition strip (s : string) : string := rstrip (lstrip s).

Definition nl : string := String (ascii_of_nat 10) EmptyString.

(** ** The handlers *)

Definition WAITING_FOR_KEY : Z := 0.

(** [ConversationHandler.END] *)
Definition END : Z := -1.

Definition main_keyboard : keyboard :=
  [[("Get Today's Images", "get_images")];
   [("Refresh Images", "refresh_images")]].

Definition refresh_keyboard : keyboard :=
  [[("Refresh Images", "refresh_images")]].

Definition full_keyboard : keyboard :=
  [[("Get Today's Images", "get_images")];
   [("Refresh Images", "refresh_images")];
   [("Logout", "logout")]].

Definition expired_text : string :=
  "Your session has expired. Please use /start to begin again.".

Definition revoked_text : string :=
  "Your activation key is no longer valid. Please contact support.".

Definition invalid_key_text : string :=
  "Invalid activation key. Please try again or contact support.".

Definition no_images_text : string :=
  "No images found for your account. Please contact support or try again later.".

Definition none_today_text : string :=
  "No images available for today. Check back later!".

Definition delivered_text : string :=
  "All images delivered! Use the buttons below for more options.".

Definition found_new_text : string :=
  "Found new or updated images! Fetching updates...".

Definition up_to_date_text : string :=
  "No new images found. You're up to date!".

Definition logged_out_text : string :=
  "You have been logged out. Use /start to login again.".

Definition sending_text (n : nat) : string :=
  "Sending " ++ str_of_nat n ++ " images...".

Definition caption_text (i total : nat) : string :=
  "Image " ++ str_of_nat (i + 1) ++ "/" ++ str_of_nat total.

Definition failed_text (i : nat) (e : exn) : string :=
  "Failed to retrieve image " ++ str_of_nat (i + 1) ++ ": " ++ e.

(** The filter loop of [get_images] (lines 175-181), with [today_images] as
    the list being appended to.  [img['url']] raises [KeyError('url')] on a
    dict that is dated today and has no ['url']. *)
Fixpoint filter_today (today : string) (image_links : list image_entry)
    (today_images : list string) : outcome (list string) :=
  match image_links with
  | [] => Returned today_images
  | img :: rest =>
      match img with
      | ImgDict d =>
          if bool_decide (d !! "date" = Some today) then
            match d !! "url" with
            | Some u => filter_today today rest (today_images ++ [u])
            | None => Raised "'url'"
            end
          else filter_today today rest today_images
      | ImgStr s => filter_today today rest (today_images ++ [s])
      | ImgOther _ => filter_today today rest today_images
      end
  end.

(** The test of line 269:
    [len(new_images) != len(old_images) or new_images != old_images]. *)
Definition changed (old_images new_images : list image_entry) : bool :=
  bool_decide (length new_images ≠ length old_images)
  || bool_decide (new_images ≠ old_images).

Section Handlers.

Variable E : env.

Definition find_one (key : string) : M (option user_doc) :=
  ask (fun h => collection_find_one E h key) (EvFindOne key).

Definition now : M datetime := ask (datetime_now E) EvNow.

Definition answer : M unit := call (query_answer E) EvAnswer.

Definition reply_text (text : string) (markup : keyboard) : M Z :=
  call (fun h => message_reply_text E h text markup)
       (EvReplyText text markup).

Definition edit_message_text (text : string) (markup : keyboard) : M Z :=
  call (fun h => query_edit_message_text E h text markup)
       (EvEditMessageText text markup).

Definition delete_message (chat_id message_id : Z) : M unit :=
  call (fun h => bot_delete_message E h chat_id message_id)
       (EvDeleteMessage chat_id message_id).

Definition send_photo (chat_id : Z) (photo : bytes) (caption : string)
    : M Z :=
  call (fun h => bot_send_photo E h chat_id photo caption)
       (EvSendPhoto chat_id photo caption).

Definition send_message (chat_id : Z) (text : string) (markup : keyboard)
    : M Z :=
  call (fun h => bot_send_message E h chat_id text markup)
       (EvSendMessage chat_id text markup).

(** [requests.get(url)] followed by [response.raise_for_status()], giving
    [response.content]. *)
Definition get_content (url : string) : M bytes :=
  call (fun h => requests_get E h url) (EvRequestsGet url).

Definition start (first_name : string) : M Z :=
  _ ← reply_text
        ("Hi " ++ first_name ++ "! Welcome to the Image Delivery Bot."
           ++ nl ++ nl
           ++ "Please enter your activation key to access your images:") [];
  mret WAITING_FOR_KEY.

Definition validate_key (text : string) : M Z :=
  let key := strip text in
  modify_session (set_activation_key key);;
  found ← find_one key;
  match found with
  | Some doc =>
      modify_session (set_user_id (_id doc));;
      modify_session (set_user_name (default "User" (name doc)));;
      modify_session (set_user_data doc);;
      modify_session (set_image_message_ids []);;
      t ← now;
      modify_session (set_last_updated t);;
      u ← get_session;
      _ ← reply_text
            ("Welcome " ++ default "" (user_name u)
               ++ "! Your activation key has been validated." ++ nl
               ++ "What would you like to do?") main_keyboard;
      mret END
  | None =>
      _ ← reply_text invalid_key_text [];
      mret WAITING_FOR_KEY
  end.

(** The loop of [clear_previous_images]: one delete per id, a failure is
    logged and the loop goes on. *)
Fixpoint delete_each (chat_id : Z) (ids : list Z) : M unit :=
  match ids with
  | [] => mret tt
  | msg_id :: rest =>
      try_except (delete_message chat_id msg_id)
        (fun e =>
           logger Warning
             ("Could not delete message " ++ str_of_Z msg_id ++ ": " ++ e));;
      delete_each chat_id rest
  end.

Definition clear_previous_images (chat_id : Z) : M unit :=
  u ← get_session;
  match image_message_ids u with
  | Some (msg_id :: rest) =>
      delete_each chat_id (msg_id :: rest);;
      modify_session (set_image_message_ids [])
  | Some [] | None => mret tt
  end.

(** The body of the send loop (lines 201-220) for the image at 0-based
    position [i]: the id of the photo message, or of the text message sent
    in its place. *)
Definition send_image (chat_id : Z) (total i : nat) (img_url : string)
    : M Z :=
  try_except
    (content ← get_content img_url;
     send_photo chat_id content (caption_text i total))
    (fun e =>
       logger Error ("Error sending image " ++ img_url ++ ": " ++ e);;
       send_message chat_id (failed_text i e) []).

(** [for i, img_url in enumerate(today_images)], appending to
    [new_message_ids]. *)
Fixpoint send_images (chat_id : Z) (total i : nat) (urls : list string)
    (new_message_ids : list Z) : M (list Z) :=
  match urls with
  | [] => mret new_message_ids
  | img_url :: rest =>
      mid ← send_image chat_id total i img_url;
      send_images chat_id total (S i) rest (new_message_ids ++ [mid])
  end.

(** [get_images] from line 183 on, once today's images are resolved. *)
Definition deliver_today (chat_id : Z) (today_images : list string)
    : M unit :=
  match today_images with
  | [] => _ ← edit_message_text none_today_text refresh_keyboard; mret tt
  | _ :: _ =>
      status_message ← edit_message_text
        (sending_text (length today_images)) [];
      clear_previous_images chat_id;;
      new_message_ids ←
        send_images chat_id (length today_images) 0 today_images [];
      modify_session (set_image_message_ids new_message_ids);;
      delete_message chat_id status_message;;
      _ ← send_message chat_id delivered_text full_keyboard;
      mret tt
  end.

(** [get_images] from line 159 on, with the document just looked up. *)
Definition deliver_doc (chat_id : Z) (doc : user_doc) : M unit :=
  match default [] (image_links doc) with
  | [] => _ ← edit_message_text no_images_text refresh_keyboard; mret tt
  | links =>
      t ← now;
      match filter_today (strftime_ymd t) links [] with
      | Raised e => fun w => (Raised e, w)
      | Returned today_images => deliver_today chat_id today_images
      end
  end.

Definition get_images (chat_id : Z) : M unit :=
  u ← get_session;
  match activation_key u with
  | None => _ ← edit_message_text expired_text []; mret tt
  | Some key =>
      found ← find_one key;
      match found with
      | None => _ ← edit_message_text revoked_text []; mret tt
      | Some doc => deliver_doc chat_id doc
      end
  end.

Definition refresh_images (chat_id : Z) : M unit :=
  u ← get_session;
  match activation_key u with
  | None => _ ← edit_message_text expired_text []; mret tt
  | Some key =>
      found ← find_one key;
      match found with
      | None => _ ← edit_message_text revoked_text []; mret tt
      | Some doc =>
          let old_images :=
            default [] (old ← user_data u; image_links old) in
          modify_session (set_user_data doc);;
          let new_images := default [] (image_links doc) in
          if changed old_images new_images then
            _ ← edit_message_text found_new_text [];
            clear_previous_images chat_id;;
            get_images chat_id
          else
            _ ← edit_message_text up_to_date_text full_keyboard;
            mret tt
      end
  end.

Definition end_session (chat_id : Z) : M unit :=
  modify_session (fun _ => cleared);;
  clear_previous_images chat_id;;
  _ ← edit_message_text logged_out_text [];
  mret tt.

Definition logout_command (chat_id : Z) : M unit :=
  modify_session (fun _ => cleared);;
  clear_previous_images chat_id;;
  _ ← reply_text logged_out_text [];
  mret tt.

Definition button_handler (chat_id : Z) (data : string) : M unit :=
  answer;;
  if bool_decide (data = "get_images") then get_images chat_id
  else if bool_decide (data = "refresh_images") then refresh_images chat_id
  else if bool_decide (data = "logout") then end_session chat_id
  else mret tt.

End Handlers.

(** ** Reading a trace *)

Definition is_lookup (ev : event) : bool :=
  match ev with EvFindOne _ _ => true | _ => false end.

Definition is_delete (ev : event) : bool :=
  match ev with EvDeleteMessage _ _ _ => true | _ => false end.

(** The transport's operations that put a new message in the chat:
    [send_photo], [send_message] and [reply_text]. *)
Definition is_send (ev : event) : bool :=
  match ev with
  | EvSendPhoto _ _ _ _ | EvSendMessage _ _ _ _ | EvReplyText _ _ _ => true
  | _ => false
  end.

Definition lookups (h : list event) : nat := length (List.filter is_lookup h).

(** The URLs the handler fetched, in order. *)
Fixpoint fetched_urls (h : list event) : list string :=
  match h with
  | [] => []
  | EvRequestsGet url _ :: rest => url :: fetched_urls rest
  | _ :: rest => fetched_urls rest
  end.

(** The message ids the handler tried to delete, in order. *)
Fixpoint delete_attempts (h : list event) : list Z :=
  match h with
  | [] => []
  | EvDeleteMessage _ message_id _ :: rest => message_id :: delete_attempts rest
  | _ :: rest => delete_attempts rest
  end.

Fixpoint starts_with (p s : string) : bool :=
  match p with
  | EmptyString => true
  | String a p' =>
      match s with
      | String b s' => Ascii.eqb a b && starts_with p' s'
      | EmptyString => false
      end
  end.

(** The text message that stands in for an image that could not be
    delivered. *)
Definition is_failed_text (text : string) : bool :=
  starts_with "Failed to retrieve image " text.

(** A photo that went out: the id the transport gave it. *)
Definition photo_id (ev : event) : option Z :=
  match ev with
  | EvSendPhoto _ _ _ (Returned mid) => Some mid
  | _ => None
  end.

(** A substitute error text that went out: the id the transport gave it. *)
Definition substitute_id (ev : event) : option Z :=
  match ev with
  | EvSendMessage _ text _ (Returned mid) =>
      if is_failed_text text then Some mid else None
  | _ => None
  end.

Definition item_id (ev : event) : option Z :=
  match photo_id ev with
  | Some mid => Some mid
  | None => substitute_id ev
  end.

(** The ids of the messages a delivery batch put in the chat, in the order
    they were sent. *)
Definition sent_ids (h : list event) : list Z := omap item_id h.



(** The events a handler added: the trace of [w'] beyond that of [w]. *)
Definition new_events (w w' : world) : list event :=
  drop (length (trace w)) (trace w').

(** What [clear_previous_images] leaves in the session: the id list is
    emptied when there was one with ids in it, and nothing else moves. *)
Definition after_cleanup (u : UserData) : UserData :=
  match image_message_ids u with
  | Some (_ :: _) => set_image_message_ids [] u
  | _ => u
  end.

(** The fields of the session other than [image_message_ids]. *)
Definition frame (u : UserData)
    : option string * option string * option string * option user_doc
      * option datetime :=
  (activation_key u, user_id u, user_name u, user_data u, last_updated u).

(** [w'] comes after [w]: the frame is the same and the trace has grown by
    events that all satisfy [P]. *)
Definition evolves (P : event -> Prop) (w w' : world) : Prop :=
  frame (session w') = frame (session w)
  /\ exists evs, trace w' = (trace w ++ evs)%list /\ Forall P evs.

Definition runs {A : Type} (P : event -> Prop) (m : M A) : Prop :=
  forall w, evolves P w (m w).2.

(** What the cleanup pass may emit. *)
Definition cleanup_event (ev : event) : Prop :=
  match ev with
  | EvDeleteMessage _ _ _ | EvLog Warning _ => True
  | _ => False
  end.

(** What the send loop may emit. *)
Definition loop_event (ev : event) : Prop :=
  match ev with
  | EvRequestsGet _ _ | EvSendPhoto _ _ _ _ | EvLog Error _ => True
  | EvSendMessage _ text markup _ => is_failed_text text = true /\ markup = []
  | _ => False
  end.

Definition not_lookup (ev : event) : Prop := is_lookup ev = false.

(** The calls one item of a batch makes when it ends with a message in the
    chat, and the id of that message: the photo, or the error text sent in
    its place after the fetch or the photo failed.  [i] is the item's 0-based
    position, shown 1-based in the caption and in the error text. *)
Inductive item_sent (chat_id : Z) (total i : nat) (img_url : string)
    : list event -> Z -> Prop :=
| item_photo (content : bytes) (mid : Z) :
    item_sent chat_id total i img_url
      [EvRequestsGet img_url (Returned content);
       EvSendPhoto chat_id content (caption_text i total) (Returned mid)]
      mid
| item_fetch_failed (e : exn) (mid : Z) :
    item_sent chat_id total i img_url
      [EvRequestsGet img_url (Raised e);
       EvLog Error ("Error sending image " ++ img_url ++ ": " ++ e);
       EvSendMessage chat_id (failed_text i e) [] (Returned mid)]
      mid
| item_photo_failed (content : bytes) (e : exn) (mid : Z) :
    item_sent chat_id total i img_url
      [EvRequestsGet img_url (Returned content);
       EvSendPhoto chat_id content (caption_text i total) (Raised e);
       EvLog Error ("Error sending image " ++ img_url ++ ": " ++ e);
       EvSendMessage chat_id (failed_text i e) [] (Returned mid)]
      mid.

(** A whole batch: the items one after the other in the order of the URLs,
    with the ids in the same order. *)
Inductive batch_sent (chat_id : Z) (total : nat)
    : nat -> list string -> list event -> list Z -> Prop :=
| batch_nil (i : nat) : batch_sent chat_id total i [] [] []
| batch_cons (i : nat) (img_url : string) (rest : list string)
      (evs1 evs2 : list event) (mid : Z) (ids : list Z) :
    item_sent chat_id total i img_url evs1 mid ->
    batch_sent chat_id total (S i) rest evs2 ids ->
    batch_sent chat_id total i (img_url :: rest) (evs1 ++ evs2) (mid :: ids).

(** Steps 3 to 5 of a delivery that runs to its end, as the calls it makes
    and what it does to the session: the status line, the cleanup pass over
    the ids the session held, the batch, the session's id list replaced by
    the ids of the batch, the status line removed and the closing message
    sent. *)
Definition delivery_run (chat_id : Z) (urls : list string) (u u' : UserData)
    (evs : list event) : Prop :=
  exists (status ctl : Z) (cleanup loop : list event) (ids : list Z),
    evs = ([EvEditMessageText (sending_text (length urls)) []
              (Returned status)]
           ++ cleanup ++ loop
           ++ [EvDeleteMessage chat_id status (Returned tt);
               EvSendMessage chat_id delivered_text full_keyboard
                 (Returned ctl)])%list
    /\ Forall cleanup_event cleanup
    /\ delete_attempts cleanup = default [] (image_message_ids u)
    /\ batch_sent chat_id (length urls) 0 urls loop ids
    /\ u' = set_image_message_ids ids (after_cleanup u).

(** The image-link sequence of a cached or fetched record, as
    [.get('image_links', [])] reads it. *)
Definition links_of (doc : option user_doc) : list image_entry :=
  default [] (doc ≫= image_links).

(** ** The resolver in the spec's words *)

(** An entry is deliverable on [today] when it is a bare URL, or a dated
    entry whose date is [today]. *)
Definition deliverable (today : string) (img : image_entry) : bool :=
  match img with
  | ImgStr _ => true
  | ImgDict d => bool_decide (d !! "date" = Some today)
  | ImgOther _ => false
  end.

Definition url_of (img : image_entry) : string :=
  match img with
  | ImgStr s => s
  | ImgDict d => default "" (d !! "url")
  | ImgOther _ => ""
  end.

Definition resolveToday (today : string) (image_links : list image_entry)
    : list string :=
  map url_of (List.filter (deliverable today) image_links).

(** A dated entry is a [{url, date}] pair: it carries its URL. *)
Definition dated_has_url (img : image_entry) : Prop :=
  match img with
  | ImgDict d => is_Some (d !! "date") -> is_Some (d !! "url")
  | _ => True
  end.

(** An entry dated [today] carries its URL. *)
Definition today_has_url (today : string) (img : image_entry) : Prop :=
  match img with
  | ImgDict d => d !! "date" = Some today -> is_Some (d !! "url")
  | _ => True
  end.

(** An entry the filter passes over whatever the day: neither a string nor
    a dict with a ['date']. *)
Definition undated_non_string (img : image_entry) : Prop :=
  match img with
  | ImgStr _ => False
  | ImgDict d => d !! "date" = None
  | ImgOther _ => True
  end.

(** What [get_images] resolves in world [w] once [doc] is found under
    [key]: the day is the one the clock gives right after the lookup. *)
Definition resolved (E : env) (w : world) (key : string) (doc : user_doc)
    : outcome (list string) :=
  filter_today
    (strftime_ymd (datetime_now E (trace w ++ [EvFindOne key (Some doc)])))
    (links_of (Some doc)) [].

(** ** Scenarios *)

Definition world0 : world := {| session := cleared; trace := [] |}.

(** The record of the spec's resolver scenario: a bare URL and an entry
    dated 2024-01-01. *)
Definition scenario_links : list image_entry :=
  [ImgStr "http://a/1.png";
   ImgDict {[ "url" := "http://a/2.png"; "date" := "2024-01-01" ]}].

(** A world for the scenarios: a record store, a content server and a
    clock; the transport never fails and numbers each message it creates or
    edits by the count of calls made before it. *)
Definition scenario_env (find : list event -> string -> option user_doc)
    (fetch : string -> outcome bytes) (t : datetime) : env :=
  {| collection_find_one := find;
     datetime_now := fun _ => t;
     query_answer := fun _ => Returned tt;
     message_reply_text := fun h _ _ => Returned (Z.of_nat (length h));
     query_edit_message_text := fun h _ _ => Returned (Z.of_nat (length h));
     bot_delete_message := fun _ _ _ => Returned tt;
     bot_send_photo := fun h _ _ _ => Returned (Z.of_nat (length h));
     bot_send_message := fun h _ _ _ => Returned (Z.of_nat (length h));
     requests_get := fun _ url => fetch url |}.

Definition day1 : datetime := {| ymd := "2024-01-01"; clock := 32400 |}.
Definition day2 : datetime := {| ymd := "2024-01-02"; clock := 32400 |}.

(** The session [validate_key] leaves for [doc] at time [t], with [ids]
    delivered since. *)
Definition logged_in (doc : user_doc) (ids : list Z) (t : datetime)
    : UserData :=
  {| activation_key := Some (access_key doc);
     user_id := Some (_id doc);
     user_name := Some (default "User" (name doc));
     user_data := Some doc;
     image_message_ids := Some ids;
     last_updated := Some t |}.

(** A store that holds one document and never changes. *)
Definition store_of (doc : user_doc) (h : list event) (key : string)
    : option user_doc :=
  if bool_decide (key = access_key doc) then Some doc else None.

Definition fetch_all (url : string) : outcome bytes := Returned [].

(** *** Three images, the second of which cannot be fetched *)

Definition three_doc : user_doc :=
  {| _id := "65a1"; access_key := "K1"; name := Some "Ann";
     image_links :=
       Some [ImgStr "http://a/1.png"; ImgStr "http://a/2.png";
             ImgStr "http://a/3.png"] |}.

Definition fetch_but_second (url : string) : outcome bytes :=
  if bool_decide (url = "http://a/2.png") then Raised "404 Client Error"
  else Returned [].

Definition three_env : env :=
  scenario_env (store_of three_doc) fetch_but_second day1.

Definition three_world : world :=
  {| session := logged_in three_doc [] day1; trace := [] |}.

(** *** Nothing dated today, two messages still in the chat *)

Definition dated_doc : user_doc :=
  {| _id := "65a2"; access_key := "K1"; name := Some "Ann";
     image_links :=
       Some [ImgDict {[ "url" := "http://a/2.png";
                        "date" := "2024-01-01" ]}] |}.

Definition next_day_env : env :=
  scenario_env (store_of dated_doc) fetch_all day2.

Definition next_day_world : world :=
  {| session := logged_in dated_doc [41; 42] day1; trace := [] |}.

(** *** The record changed in the store since login *)

Definition old_doc : user_doc :=
  {| _id := "65a3"; access_key := "K1"; name := Some "Ann";
     image_links := Some [ImgStr "http://a/1.png"] |}.

Definition new_doc : user_doc :=
  {| _id := "65a3"; access_key := "K1"; name := Some "Ann";
     image_links := Some [ImgStr "http://a/1.png"; ImgStr "http://a/3.png"] |}.

Definition stale_env : env := scenario_env (store_of new_doc) fetch_all day2.

Definition stale_world : world :=
  {| session := logged_in old_doc [] day1; trace := [] |}.

(** *** The record changes again between two lookups *)

Definition third_doc : user_doc :=
  {| _id := "65a3"; access_key := "K1"; name := Some "Ann";
     image_links := Some [ImgStr "http://b/9.png"] |}.

(** The first lookup finds [new_doc], every later one [third_doc]. *)
Definition shifting_store (h : list event) (key : string) : option user_doc :=
  if bool_decide (key = "K1") then
    if bool_decide (lookups h = 0%nat) then Some new_doc else Some third_doc
  else None.

Definition shifting_env : env := scenario_env shifting_store fetch_all day2.

(** *** Only the name changed in the store *)

Definition renamed_doc : user_doc :=
  {| _id := "65a3"; access_key := "K1"; name := Some "Anna";
     image_links := Some [ImgStr "http://a/1.png"] |}.

Definition renamed_env : env :=
  scenario_env (store_of renamed_doc) fetch_all day2.

(** *** The key is gone from the store *)

Definition empty_store (h : list event) (key : string) : option user_doc :=
  None.

Definition revoked_env : env := scenario_env empty_store fetch_all day2.

(** *** A dict entry with a URL and no date *)

Definition undated_entry : image_entry :=
  ImgDict {[ "url" := "http://a/7.png" ]}.


(** ** The remaining command handlers *)

Definition help_text : string :=
  "How to use this bot:" ++ nl ++ nl
  ++ "1. Start with /start and enter your activation key" ++ nl
  ++ "2. Once validated, use the buttons to get images" ++ nl
  ++ "3. 'Get Today's Images' will show all images for today" ++ nl
  ++ "4. 'Refresh Images' will check for new updates" ++ nl ++ nl
  ++ "If you need assistance, please contact support.".

Definition cancelled_text : string :=
  "Operation cancelled. Use /start to begin again.".

(** The welcome that [validate_key] sends to the user named [user_name]. *)
Definition welcome_text (user_name : string) : string :=
  "Welcome " ++ user_name ++ "! Your activation key has been validated."
  ++ nl ++ "What would you like to do?".

Section Commands.

Variable E : env.

Definition help_command : M unit :=
  _ ← reply_text E help_text []; mret tt.

Definition cancel : M Z :=
  _ ← reply_text E cancelled_text []; mret END.

End Commands.

(** ** More readings of a trace *)

(** Does the string begin with a character [strip] removes? *)
Definition starts_with_space (s : string) : bool :=
  bool_decide (is_Some (drop_first whitespace (list_ascii_of_string s))).

(** Does the string end with a character [strip] removes? *)
Definition ends_with_space (s : string) : bool :=
  bool_decide
    (is_Some (drop_first (map (@rev ascii) whitespace)
                (rev (list_ascii_of_string s)))).

(** The captions of the photos the handler tried to send, in order. *)
Fixpoint photo_captions (h : list event) : list string :=
  match h with
  | [] => []
  | EvSendPhoto _ _ caption _ :: rest => caption :: photo_captions rest
  | _ :: rest => photo_captions rest
  end.

(** The captions [Image 1/n] ... [Image n/n], from position [i] on. *)
Definition captions_from (total i count : nat) : list string :=
  map (fun k => caption_text k total) (seq i count).

(** The calls of a cleanup pass over [ids]: one delete per id, in order,
    and right after each delete that raised, the warning that names the id
    and the reason; nothing else. *)
Inductive cleanup_run (chat_id : Z) : list Z -> list event -> Prop :=
| cleanup_done : cleanup_run chat_id [] []
| cleanup_deleted (msg_id : Z) (rest : list Z) (evs : list event) :
    cleanup_run chat_id rest evs ->
    cleanup_run chat_id (msg_id :: rest)
      (EvDeleteMessage chat_id msg_id (Returned tt) :: evs)
| cleanup_failed (msg_id : Z) (e : exn) (rest : list Z) (evs : list event) :
    cleanup_run chat_id rest evs ->
    cleanup_run chat_id (msg_id :: rest)
      (EvDeleteMessage chat_id msg_id (Raised e)
         :: EvLog Warning
              ("Could not delete message " ++ str_of_Z msg_id ++ ": " ++ e)
         :: evs).

(** Each photo the handler tried to send, with the number of fetches made
    before it: [k] counts the fetches seen so far, so a photo paired with
    [k] comes after the [k]-th fetch and before the next. *)
Fixpoint captions_by_fetch (h : list event) (k : nat) : list (nat * string) :=
  match h with
  | [] => []
  | EvRequestsGet _ _ :: rest => captions_by_fetch rest (S k)
  | EvSendPhoto _ _ caption _ :: rest => (k, caption) :: captions_by_fetch rest k
  | _ :: rest => captions_by_fetch rest k
  end.

(** An event that is neither a fetch nor a send nor a lookup: what may
    happen before the batch starts. *)
Definition before_batch (ev : event) : Prop :=
  match ev with
  | EvRequestsGet _ _ | EvSendPhoto _ _ _ _ | EvSendMessage _ _ _ _ => False
  | _ => True
  end.

(** ** More scenarios *)

(** *** A record without the [image_links] field *)

Definition bare_doc : user_doc :=
  {| _id := "65a4"; access_key := "K1"; name := None; image_links := None |}.

Definition bare_env : env := scenario_env (store_of bare_doc) fetch_all day1.

Definition bare_world : world :=
  {| session := logged_in bare_doc [41; 42] day1; trace := [] |}.

(** *** An entry dated today that has no URL *)

Definition broken_doc : user_doc :=
  {| _id := "65a5"; access_key := "K1"; name := Some "Ann";
     image_links :=
       Some [ImgStr "http://a/1.png";
             ImgDict {[ "date" := "2024-01-01" ]};
             ImgStr "http://a/3.png"] |}.

Definition broken_env : env :=
  scenario_env (store_of broken_doc) fetch_all day1.

Definition broken_world : world :=
  {| session := logged_in broken_doc [41; 42] day1; trace := [] |}.

(** *** The transport refuses the callback answer *)

Definition deaf_env : env :=
  {| collection_find_one := store_of three_doc;
     datetime_now := fun _ => day1;
     query_answer := fun _ => Raised "Query is too old";
     message_reply_text := fun h _ _ => Returned (Z.of_nat (length h));
     query_edit_message_text := fun h _ _ => Returned (Z.of_nat (length h));
     bot_delete_message := fun _ _ _ => Returned tt;
     bot_send_photo := fun h _ _ _ => Returned (Z.of_nat (length h));
     bot_send_message := fun h _ _ _ => Returned (Z.of_nat (length h));
     requests_get := fun _ url => fetch_all url |}.

(** *** The second image cannot be fetched and the error text cannot be sent *)

Definition mute_env : env :=
  {| collection_find_one := store_of three_doc;
     datetime_now := fun _ => day1;
     query_answer := fun _ => Returned tt;
     message_reply_text := fun h _ _ => Returned (Z.of_nat (length h));
     query_edit_message_text := fun h _ _ => Returned (Z.of_nat (length h));
     bot_delete_message := fun _ _ _ => Returned tt;
     bot_send_photo := fun h _ _ _ => Returned (Z.of_nat (length h));
     bot_send_message := fun h _ text _ =>
       if is_failed_text text then Raised "Timed out"
       else Returned (Z.of_nat (length h));
     requests_get := fun _ url => fetch_but_second url |}.

Definition mute_world : world :=
  {| session := logged_in three_doc [41; 42] day1; trace := [] |}.

(** *** A dated entry without a URL, among entries that have one *)

(** On 2024-01-02 the first entry is not dated today and the second is. *)
Definition other_day_links : list image_entry :=
  [ImgDict {[ "date" := "2024-01-01" ]};
   ImgDict {[ "url" := "http://a/5.png"; "date" := "2024-01-02" ]}].

(** On 2024-01-01 the second entry is dated today and has no URL. *)
Definition broken_links : list image_entry :=
  [ImgStr "http://a/1.png";
   ImgDict {[ "date" := "2024-01-01" ]};
   ImgStr "http://a/3.png"].

(** * Properties *)

(** ** The trace only grows *)

Lemma new_events_app (w w' : world) (evs : list event) :
  trace w' = (trace w ++ evs)%list -> new_events w w' = evs.
Proof.
  intros Heq. unfold new_events. rewrite Heq. apply drop_app_length.
Qed.

Lemma lookups_app (h1 h2 : list event) :
  lookups (h1 ++ h2) = (lookups h1 + lookups h2)%nat.
Proof. unfold lookups. now rewrite List.filter_app, length_app. Qed.

Lemma lookups_quiet (evs : list event) : Forall not_lookup evs -> lookups evs = 0%nat.
Proof.
  unfold lookups. induction 1 as [|ev evs Hev _ IH]; [reflexivity|].
  simpl. unfold not_lookup in Hev. now rewrite Hev.
Qed.

Lemma sent_ids_app (h1 h2 : list event) :
  sent_ids (h1 ++ h2) = (sent_ids h1 ++ sent_ids h2)%list.
Proof. apply omap_app. Qed.

Lemma delete_attempts_app (h1 h2 : list event) :
  delete_attempts (h1 ++ h2) = (delete_attempts h1 ++ delete_attempts h2)%list.
Proof.
  induction h1 as [|ev h1 IH]; [reflexivity|].
  destruct ev; simpl; now rewrite ?IH.
Qed.

Lemma is_failed_text_failed (i : nat) (e : exn) :
  is_failed_text (failed_text i e) = true.
Proof. reflexivity. Qed.

Lemma evolves_refl (P : event -> Prop) (w : world) : evolves P w w.
Proof.
  split; [reflexivity|]. exists []. now rewrite app_nil_r.
Qed.

Lemma evolves_trans (P : event -> Prop) (w1 w2 w3 : world) :
  evolves P w1 w2 -> evolves P w2 w3 -> evolves P w1 w3.
Proof.
  intros [Hf1 (evs1 & Ht1 & HP1)] [Hf2 (evs2 & Ht2 & HP2)]. split.
  - congruence.
  - exists (evs1 ++ evs2)%list. split.
    + now rewrite Ht2, Ht1, <- app_assoc.
    + now apply Forall_app.
Qed.

Lemma evolves_mono (P Q : event -> Prop) (w w' : world) :
  (forall ev, P ev -> Q ev) -> evolves P w w' -> evolves Q w w'.
Proof.
  intros HPQ [Hf (evs & Ht & HP)]. split; [exact Hf|].
  exists evs. split; [exact Ht|]. eapply Forall_impl; eauto.
Qed.

Lemma evolves_log (P : event -> Prop) (ev : event) (w : world) :
  P ev -> evolves P w (log_event ev w).
Proof.
  intros HP. split; [reflexivity|]. exists [ev]. split; [reflexivity|].
  now constructor.
Qed.

Section Runs.

Context {A B : Type} (P : event -> Prop).

Lemma runs_ret (a : A) : runs P (mret a : M A).
Proof. intros w. apply evolves_refl. Qed.

Lemma runs_bind (m : M A) (k : A -> M B) :
  runs P m -> (forall a, runs P (k a)) -> runs P (m ≫= k).
Proof.
  intros Hm Hk w. specialize (Hm w).
  unfold mbind, M_bind. destruct (m w) as [[a|e] w1]; simpl in *.
  - eapply evolves_trans; [exact Hm|]. apply Hk.
  - exact Hm.
Qed.

Lemma runs_try_except (body : M A) (handler : exn -> M A) :
  runs P body -> (forall e, runs P (handler e)) ->
  runs P (try_except body handler).
Proof.
  intros Hb Hh w. specialize (Hb w).
  unfold try_except. destruct (body w) as [[a|e] w1]; simpl in *.
  - exact Hb.
  - eapply evolves_trans; [exact Hb|]. apply Hh.
Qed.

Lemma runs_call (oracle : list event -> outcome A)
    (ev : outcome A -> event) :
  (forall r, P (ev r)) -> runs P (call oracle ev).
Proof. intros HP w. now apply evolves_log. Qed.

Lemma runs_ask (oracle : list event -> A) (ev : A -> event) :
  (forall r, P (ev r)) -> runs P (ask oracle ev).
Proof. intros HP w. now apply evolves_log. Qed.

Lemma runs_mono (Q : event -> Prop) (m : M A) :
  (forall ev, Q ev -> P ev) -> runs Q m -> runs P m.
Proof. intros HQP Hm w. eapply evolves_mono; eauto. Qed.

End Runs.

Lemma runs_logger (P : event -> Prop) (level : log_level) (msg : string) :
  P (EvLog level msg) -> runs P (logger level msg).
Proof. intros HP w. now apply evolves_log. Qed.

Lemma runs_get_session (P : event -> Prop) : runs P get_session.
Proof. intros w. apply evolves_refl. Qed.

Lemma runs_set_image_message_ids (P : event -> Prop) (ids : list Z) :
  runs P (modify_session (set_image_message_ids ids)).
Proof.
  intros w. split; [reflexivity|]. exists []. simpl. now rewrite app_nil_r.
Qed.

(** ** Evaluating binds *)

Lemma bind_returned {A B : Type} (m : M A) (k : A -> M B) (w w1 : world)
    (a : A) :
  m w = (Returned a, w1) -> (m ≫= k) w = k a w1.
Proof. intros Hm. unfold mbind, M_bind. now rewrite Hm. Qed.

Lemma bind_raised {A B : Type} (m : M A) (k : A -> M B) (w w1 : world)
    (e : exn) :
  m w = (Raised e, w1) -> (m ≫= k) w = (Raised e, w1).
Proof. intros Hm. unfold mbind, M_bind. now rewrite Hm. Qed.

(** ** Reports and ids *)



Lemma cleanup_sent_ids (evs : list event) :
  Forall cleanup_event evs -> sent_ids evs = [].
Proof.
  induction 1 as [|ev evs Hev _ IH]; [reflexivity|].
  change (sent_ids (ev :: evs)) with (sent_ids ([ev] ++ evs)).
  rewrite sent_ids_app, IH. now destruct ev.
Qed.

Lemma cleanup_not_lookup (ev : event) : cleanup_event ev -> not_lookup ev.
Proof. now destruct ev. Qed.

Lemma loop_not_lookup (ev : event) : loop_event ev -> not_lookup ev.
Proof. now destruct ev. Qed.

Lemma loop_delete_attempts (evs : list event) :
  Forall loop_event evs -> delete_attempts evs = [].
Proof.
  induction 1 as [|ev evs Hev _ IH]; [reflexivity|]. now destruct ev.
Qed.

Lemma item_sent_ids (chat_id : Z) (total i : nat) (img_url : string)
    (evs : list event) (mid : Z) :
  item_sent chat_id total i img_url evs mid -> sent_ids evs = [mid].
Proof. now destruct 1. Qed.

(** The ids of a batch are the ids of the messages it sent, one per URL. *)
Lemma batch_sent_ids (chat_id : Z) (total i : nat) (urls : list string)
    (evs : list event) (ids : list Z) :
  batch_sent chat_id total i urls evs ids ->
  sent_ids evs = ids /\ length ids = length urls.
Proof.
  induction 1 as [i|i img_url rest evs1 evs2 mid ids H1 _ [IHids IHlen]].
  - now split.
  - rewrite sent_ids_app, (item_sent_ids _ _ _ _ _ _ H1), IHids. simpl.
    now rewrite IHlen.
Qed.

Section Loops.

Variable E : env.

(** *** The cleanup pass *)

(** The cleanup loop never raises, leaves the session alone, and tries to
    delete each id once, in order. *)
Lemma delete_each_spec (chat_id : Z) (ids : list Z) (w : world) :
  exists evs,
    delete_each E chat_id ids w
      = (Returned tt,
         {| session := session w; trace := trace w ++ evs |})
    /\ Forall cleanup_event evs
    /\ delete_attempts evs = ids.
Proof.
  revert w. induction ids as [|msg_id rest IH]; intros w.
  - exists []. simpl. rewrite app_nil_r. now destruct w.
  - simpl delete_each.
    unfold mbind, M_bind, try_except, delete_message, call, logger.
    destruct (bot_delete_message E (trace w) chat_id msg_id) as [[]|e] eqn:Hd.
    + destruct (IH (log_event
                      (EvDeleteMessage chat_id msg_id (Returned tt)) w))
        as (evs & -> & Hc & Ha).
      eexists (_ :: evs). simpl. rewrite <- app_assoc. simpl.
      split; [reflexivity|]. split; [|now rewrite Ha].
      now constructor.
    + destruct (IH (log_event
                      (EvLog Warning
                         ("Could not delete message " ++ str_of_Z msg_id
                            ++ ": " ++ e))
                      (log_event
                         (EvDeleteMessage chat_id msg_id (Raised e)) w)))
        as (evs & -> & Hc & Ha).
      eexists (_ :: _ :: evs). simpl. rewrite <- !app_assoc. simpl.
      split; [reflexivity|]. split; [|now rewrite Ha].
      now repeat constructor.
Qed.

Lemma clear_previous_images_spec (chat_id : Z) (w : world) :
  exists evs,
    clear_previous_images E chat_id w
      = (Returned tt,
         {| session := after_cleanup (session w);
            trace := trace w ++ evs |})
    /\ Forall cleanup_event evs
    /\ delete_attempts evs = default [] (image_message_ids (session w)).
Proof.
  unfold clear_previous_images, after_cleanup, mbind, M_bind, get_session.
  destruct (image_message_ids (session w)) as [[|msg_id rest]|] eqn:Hids.
  - exists []. rewrite app_nil_r. now destruct w.
  - destruct (delete_each_spec chat_id (msg_id :: rest) w)
      as (evs & -> & Hc & Ha).
    exists evs. now unfold modify_session.
  - exists []. rewrite app_nil_r. now destruct w.
Qed.

Lemma frame_after_cleanup (u : UserData) :
  frame (after_cleanup u) = frame u.
Proof.
  unfold after_cleanup. now destruct (image_message_ids u) as [[|? ?]|].
Qed.

Lemma clear_previous_images_runs (chat_id : Z) :
  runs cleanup_event (clear_previous_images E chat_id).
Proof.
  intros w.
  destruct (clear_previous_images_spec chat_id w) as (evs & -> & Hc & _).
  split; [apply frame_after_cleanup|]. now exists evs.
Qed.

(** *** The send loop *)

(** One item: the session is left alone, and when the item returns an id
    that id is the one message the item put in the chat. *)
Lemma send_image_spec (chat_id : Z) (total i : nat) (img_url : string)
    (w : world) :
  exists evs r,
    send_image E chat_id total i img_url w
      = (r, {| session := session w; trace := trace w ++ evs |})
    /\ Forall loop_event evs
    /\ match r with
       | Returned mid => item_sent chat_id total i img_url evs mid
       | Raised _ => True
       end.
Proof.
  unfold send_image, try_except, mbind, M_bind, get_content, send_photo,
    send_message, logger, call, log_event.
  destruct (requests_get E (trace w) img_url) as [content|e]; simpl.
  - destruct (bot_send_photo E _ chat_id content (caption_text i total))
      as [mid|e]; simpl.
    + eexists _, _. rewrite <- app_assoc.
      split; [reflexivity|]. split; [now repeat constructor|constructor].
    + destruct (bot_send_message E _ chat_id (failed_text i e) [])
        as [mid|e']; simpl; eexists _, _; rewrite <- !app_assoc;
        (split; [reflexivity|]);
        (split; [now repeat constructor|try constructor]).
  - destruct (bot_send_message E _ chat_id (failed_text i e) [])
      as [mid|e']; simpl; eexists _, _; rewrite <- !app_assoc;
      (split; [reflexivity|]);
      (split; [now repeat constructor|try constructor]).
Qed.

(** The whole loop: when it returns, the list it returns is the list it
    started from followed by one id per URL, in the order of the URLs. *)
Lemma send_images_spec (chat_id : Z) (total : nat) (urls : list string) :
  forall (i : nat) (acc : list Z) (w : world),
  exists evs r,
    send_images E chat_id total i urls acc w
      = (r, {| session := session w; trace := trace w ++ evs |})
    /\ Forall loop_event evs
    /\ match r with
       | Returned ids =>
           exists new_ids,
             ids = (acc ++ new_ids)%list
             /\ batch_sent chat_id total i urls evs new_ids
       | Raised _ => True
       end.
Proof.
  induction urls as [|img_url rest IH]; intros i acc w.
  - exists [], (Returned acc). simpl. rewrite !app_nil_r.
    split; [now destruct w|]. split; [constructor|].
    exists []. rewrite app_nil_r. split; [reflexivity|constructor].
  - simpl send_images.
    destruct (send_image_spec chat_id total i img_url w)
      as (evs1 & r1 & H1 & Hl1 & Hid1).
    destruct r1 as [mid|e].
    + rewrite (bind_returned _ _ _ _ _ H1).
      destruct (IH (S i) (acc ++ [mid])%list
                  {| session := session w; trace := trace w ++ evs1 |})
        as (evs2 & r2 & -> & Hl2 & Hid2).
      exists (evs1 ++ evs2)%list, r2. simpl. rewrite <- app_assoc.
      split; [reflexivity|]. split; [now apply Forall_app|].
      destruct r2 as [ids|e]; [|exact I].
      destruct Hid2 as (new_ids & -> & Hb). exists (mid :: new_ids).
      rewrite <- app_assoc. split; [reflexivity|]. now constructor.
    + rewrite (bind_raised _ _ _ _ _ H1).
      exists evs1, (Raised e). now repeat split.
Qed.

End Loops.

(** ** The resolver *)

Lemma filter_today_acc (today : string) (links : list image_entry) :
  Forall (today_has_url today) links ->
  forall acc,
    filter_today today links acc
      = Returned (acc ++ resolveToday today links)%list.
Proof.
  induction 1 as [|img rest Himg _ IH]; intros acc.
  - simpl. now rewrite app_nil_r.
  - destruct img as [s|d|r]; simpl.
    + rewrite IH. unfold resolveToday. simpl. now rewrite <- app_assoc.
    + unfold resolveToday. simpl. case_bool_decide as Hdate.
      * destruct (Himg Hdate) as [u Hu].
        rewrite Hu, IH. unfold resolveToday. simpl. rewrite Hu.
        now rewrite <- app_assoc.
      * apply IH.
    + apply IH.
Qed.

(** Where nothing is deliverable, nothing is dated today. *)
Lemma none_deliverable_has_url (today : string) (links : list image_entry) :
  List.filter (deliverable today) links = [] ->
  Forall (today_has_url today) links.
Proof.
  induction links as [|img rest IH]; [constructor|].
  simpl. destruct (deliverable today img) eqn:Hd; [discriminate|].
  intros Hrest. constructor; [|now apply IH].
  destruct img as [s|d|r]; simpl in *; [exact I| |exact I].
  intros Hdate. apply bool_decide_eq_false in Hd. contradiction.
Qed.

Lemma filter_today_skip (today : string) (pre post : list image_entry)
    (img : image_entry) :
  undated_non_string img ->
  forall acc,
    filter_today today (pre ++ img :: post) acc
      = filter_today today (pre ++ post) acc.
Proof.
  intros Himg. induction pre as [|hd pre IH]; intros acc.
  - destruct img as [s|d|r]; simpl in *; [contradiction| |reflexivity].
    now rewrite Himg, bool_decide_eq_false_2.
  - destruct hd as [s|d|r]; simpl; try apply IH.
    case_bool_decide; [|apply IH]. destruct (d !! "url"); [apply IH|reflexivity].
Qed.

(** C8.  For every day and every image-link sequence in which each dict entry
    dated that day carries a ['url'], the filter loop of [get_images]
    returns exactly the URLs of the entries that are bare strings or are
    dated that day, in the order of the sequence.  And whatever the
    sequence, when no entry is a bare string or dated that day it returns
    the empty list, not an error. *)
Theorem resolveToday_stable_filter (today : string)
    (links : list image_entry) :
  (Forall (today_has_url today) links ->
   filter_today today links []
     = Returned (map url_of (List.filter (deliverable today) links)))
  /\ (List.filter (deliverable today) links = [] ->
      filter_today today links [] = Returned []).
Proof.
  assert (Forall (today_has_url today) links ->
          filter_today today links []
            = Returned (map url_of (List.filter (deliverable today) links)))
    as Hmain.
  { intros Hwf. exact (filter_today_acc today links Hwf []). }
  split; [exact Hmain|].
  intros Hnone. rewrite (Hmain (none_deliverable_has_url _ _ Hnone)).
  now rewrite Hnone.
Qed.

Lemma resolveToday_stable_filter_witness :
  (Forall (today_has_url "2024-01-01") scenario_links
   /\ Forall (today_has_url "2024-01-02") other_day_links
   /\ List.filter (deliverable "2024-01-03") other_day_links = [])
  /\ filter_today "2024-01-01" scenario_links []
     = Returned ["http://a/1.png"; "http://a/2.png"]
  /\ filter_today "2024-01-02" scenario_links []
     = Returned ["http://a/1.png"]
  /\ filter_today "2024-01-02" other_day_links []
     = Returned ["http://a/5.png"]
  /\ filter_today "2024-01-03" other_day_links [] = Returned [].
Proof.
  assert (Forall (today_has_url "2024-01-01") scenario_links) as Hwf1.
  { repeat constructor. intros _. exists "http://a/2.png". now vm_compute. }
  assert (Forall (today_has_url "2024-01-02") scenario_links) as Hwf2.
  { repeat constructor. intros _. exists "http://a/2.png". now vm_compute. }
  assert (Forall (today_has_url "2024-01-02") other_day_links) as Hwf3.
  { repeat constructor.
    - intros Hdate. vm_compute in Hdate. discriminate.
    - intros _. exists "http://a/5.png". now vm_compute. }
  assert (List.filter (deliverable "2024-01-03") other_day_links = [])
    as Hnone by now vm_compute.
  split; [now repeat split|]. split; [|split; [|split]].
  - now rewrite (proj1 (resolveToday_stable_filter "2024-01-01" _) Hwf1).
  - now rewrite (proj1 (resolveToday_stable_filter "2024-01-02" _) Hwf2).
  - now rewrite (proj1 (resolveToday_stable_filter "2024-01-02" _) Hwf3).
  - exact (proj2 (resolveToday_stable_filter "2024-01-03" _) Hnone).
Defined.

(** A dict dated today that has no ['url']: the filter loop raises
    [KeyError] where the entries that qualify are the two bare URLs and the
    dict, and returns no list at all. *)
Lemma resolveToday_raises_without_url :
  List.filter (deliverable "2024-01-01") broken_links = broken_links
  /\ filter_today "2024-01-01" broken_links [] = Raised "'url'"
  /\ forall urls, filter_today "2024-01-01" broken_links [] <> Returned urls.
Proof.
  split; [now vm_compute|].
  assert (filter_today "2024-01-01" broken_links [] = Raised "'url'") as Hr
    by now vm_compute.
  split; [exact Hr|]. intros urls. rewrite Hr. discriminate.
Qed.

(** ** Delivery *)

Lemma delivery_run_ids (chat_id : Z) (urls : list string) (u u' : UserData)
    (evs : list event) :
  delivery_run chat_id urls u u' evs ->
  image_message_ids u' = Some (sent_ids evs)
  /\ length (sent_ids evs) = length urls
  /\ frame u' = frame u.
Proof.
  intros (status & ctl & cleanup & loop & ids & -> & Hc & _ & Hb & ->).
  destruct (batch_sent_ids _ _ _ _ _ _ Hb) as [Hids Hlen].
  rewrite !sent_ids_app, (cleanup_sent_ids cleanup Hc), Hids. simpl.
  rewrite app_nil_r. repeat split; [exact Hlen|].
  unfold after_cleanup. now destruct (image_message_ids u) as [[|? ?]|].
Qed.

Section Delivery.

Variable E : env.

Lemma send_images_runs (chat_id : Z) (total i : nat) (urls : list string)
    (acc : list Z) :
  runs loop_event (send_images E chat_id total i urls acc).
Proof.
  intros w.
  destruct (send_images_spec E chat_id total urls i acc w)
    as (evs & r & -> & Hl & _).
  split; [reflexivity|]. now exists evs.
Qed.

Lemma deliver_today_runs (chat_id : Z) (today_images : list string) :
  runs not_lookup (deliver_today E chat_id today_images).
Proof.
  unfold deliver_today. destruct today_images as [|url rest].
  - apply runs_bind; [now apply runs_call|]. intros _. apply runs_ret.
  - apply runs_bind; [now apply runs_call|]. intros status.
    apply runs_bind.
    { eapply runs_mono; [apply cleanup_not_lookup|].
      apply clear_previous_images_runs. }
    intros _. apply runs_bind.
    { eapply runs_mono; [apply loop_not_lookup|]. apply send_images_runs. }
    intros ids. apply runs_bind; [apply runs_set_image_message_ids|].
    intros _. apply runs_bind; [now apply runs_call|].
    intros _. apply runs_bind; [now apply runs_call|].
    intros _. apply runs_ret.
Qed.

Lemma deliver_doc_runs (chat_id : Z) (doc : user_doc) :
  runs not_lookup (deliver_doc E chat_id doc).
Proof.
  unfold deliver_doc. destruct (default [] (image_links doc)) as [|img rest].
  - apply runs_bind; [now apply runs_call|]. intros _. apply runs_ret.
  - apply runs_bind; [now apply runs_ask|]. intros t.
    destruct (filter_today _ _ _) as [urls|e].
    + apply deliver_today_runs.
    + intros w. apply evolves_refl.
Qed.

(** A delivery that returns ran steps 3 to 5 to their end. *)
Lemma deliver_today_success (chat_id : Z) (urls : list string)
    (w w' : world) :
  urls <> [] ->
  deliver_today E chat_id urls w = (Returned tt, w') ->
  exists evs,
    trace w' = (trace w ++ evs)%list
    /\ delivery_run chat_id urls (session w) (session w') evs.
Proof.
  intros Hne. unfold deliver_today.
  destruct urls as [|url rest]; [contradiction|]. clear Hne.
  set (urls := url :: rest). set (n := length urls).
  unfold mbind at 1, M_bind at 1, edit_message_text, call.
  destruct (query_edit_message_text E (trace w) _ []) as [status|e] eqn:Hst;
    [|discriminate].
  set (ev0 := EvEditMessageText _ _ _).
  unfold mbind at 1, M_bind at 1.
  destruct (clear_previous_images_spec E chat_id (log_event ev0 w))
    as (evs1 & -> & Hc & Hd).
  unfold mbind at 1, M_bind at 1.
  match goal with
  | |- context [send_images E chat_id n 0 urls [] ?w1] =>
      destruct (send_images_spec E chat_id n urls 0 [] w1)
        as (evs2 & r & -> & Hl & Hids)
  end.
  destruct r as [ids|e]; [|discriminate].
  destruct Hids as (new_ids & -> & Hb).
  unfold mbind, M_bind, modify_session, delete_message, send_message, call.
  simpl.
  destruct (bot_delete_message E _ chat_id status) as [[]|e]; [|discriminate].
  destruct (bot_send_message E _ chat_id delivered_text full_keyboard)
    as [ctl|e]; [|discriminate].
  intros [= <-]. simpl. eexists. split.
  { rewrite <- !app_assoc. reflexivity. }
  exists status, ctl, evs1, evs2, new_ids. simpl.
  repeat split; assumption.
Qed.

End Delivery.

(** ** [get_images] *)

Section GetImages.

Variable E : env.

Lemma get_images_found (chat_id : Z) (w : world) (key : string)
    (doc : user_doc) :
  activation_key (session w) = Some key ->
  collection_find_one E (trace w) key = Some doc ->
  get_images E chat_id w
    = deliver_doc E chat_id doc (log_event (EvFindOne key (Some doc)) w).
Proof.
  intros Hkey Hfind.
  unfold get_images, mbind, M_bind, get_session, find_one, ask.
  now rewrite Hkey, Hfind.
Qed.

Lemma deliver_doc_resolved (chat_id : Z) (w : world) (key : string)
    (doc : user_doc) (urls : list string) :
  resolved E w key doc = Returned urls ->
  urls <> [] ->
  deliver_doc E chat_id doc (log_event (EvFindOne key (Some doc)) w)
    = deliver_today E chat_id urls
        (log_event (EvNow (datetime_now E (trace w ++ [EvFindOne key (Some doc)])))
           (log_event (EvFindOne key (Some doc)) w)).
Proof.
  unfold resolved, links_of, deliver_doc. cbn [mbind option_bind].
  intros Hres Hne.
  destruct (default [] (image_links doc)) as [|img rest] eqn:Hlinks.
  - simpl in Hres. congruence.
  - unfold mbind, M_bind, now, ask. cbn [log_event trace].
    now rewrite Hres.
Qed.

(** A [get_images] that returns with something resolved looked the record
    up once, read the clock, and ran a delivery to its end. *)
Lemma get_images_success (chat_id : Z) (w w' : world) (key : string)
    (doc : user_doc) (urls : list string) :
  activation_key (session w) = Some key ->
  collection_find_one E (trace w) key = Some doc ->
  resolved E w key doc = Returned urls ->
  urls <> [] ->
  get_images E chat_id w = (Returned tt, w') ->
  exists t evs,
    new_events w w' = ([EvFindOne key (Some doc); EvNow t] ++ evs)%list
    /\ delivery_run chat_id urls (session w) (session w') evs.
Proof.
  intros Hkey Hfind Hres Hne.
  rewrite (get_images_found _ _ _ _ Hkey Hfind).
  rewrite (deliver_doc_resolved _ _ _ _ _ Hres Hne).
  intros Hrun.
  destruct (deliver_today_success E _ _ _ _ Hne Hrun) as (evs & Ht & Hd).
  eexists _, evs. split; [|exact Hd].
  apply new_events_app. rewrite Ht. simpl. now rewrite <- !app_assoc.
Qed.

End GetImages.

(** C4.  After a [get_images] that returns with a non-empty set resolved, the
    session's id list is the list of ids of the messages the batch put in
    the chat, in the order sent; the cached record and [last_updated] are as
    they were before the call. *)
Theorem deliver_replaces_ids_only (E : env) (chat_id : Z) (w w' : world)
    (key : string) (doc : user_doc) (urls : list string) :
  activation_key (session w) = Some key ->
  collection_find_one E (trace w) key = Some doc ->
  resolved E w key doc = Returned urls ->
  urls <> [] ->
  get_images E chat_id w = (Returned tt, w') ->
  image_message_ids (session w') = Some (sent_ids (new_events w w'))
  /\ user_data (session w') = user_data (session w)
  /\ last_updated (session w') = last_updated (session w).
Proof.
  intros Hkey Hfind Hres Hne Hrun.
  destruct (get_images_success E _ _ _ _ _ _ Hkey Hfind Hres Hne Hrun)
    as (t & evs & -> & Hd).
  destruct (delivery_run_ids _ _ _ _ _ Hd) as (Hids & _ & Hframe).
  split; [exact Hids|]. unfold frame in Hframe. now inversion Hframe.
Qed.

Lemma deliver_replaces_ids_only_witness :
  let w' := (get_images stale_env 5 stale_world).2 in
  (activation_key (session stale_world) = Some "K1"
   /\ collection_find_one stale_env (trace stale_world) "K1" = Some new_doc
   /\ get_images stale_env 5 stale_world = (Returned tt, w'))
  /\ image_message_ids (session w') = Some (sent_ids (new_events stale_world w'))
  /\ user_data (session w') = user_data (session stale_world)
  /\ last_updated (session w') = last_updated (session stale_world).
Proof.
  split; [now vm_compute|].
  apply (deliver_replaces_ids_only stale_env 5 stale_world _ "K1" new_doc
           ["http://a/1.png"; "http://a/3.png"]);
    [reflexivity|reflexivity|reflexivity|discriminate|now vm_compute].
Defined.

(** The same call shows what [get_images] does not do: the record it fetched
    is [new_doc] and the clock reads [day2], yet the session still caches
    [old_doc] with the login time [day1]. *)
Lemma deliver_keeps_cached_record :
  let r := get_images stale_env 5 stale_world in
  r.1 = Returned tt
  /\ collection_find_one stale_env (trace stale_world) "K1" = Some new_doc
  /\ resolved stale_env stale_world "K1" new_doc
     = Returned ["http://a/1.png"; "http://a/3.png"]
  /\ image_message_ids (session r.2) = Some [4; 6]
  /\ user_data (session r.2) = Some old_doc
  /\ user_data (session r.2) <> Some new_doc
  /\ last_updated (session r.2) = Some day1
  /\ last_updated (session r.2) <> Some day2.
Proof. vm_compute. repeat split; discriminate. Qed.




(** ** [refresh_images] *)

Lemma changed_false (old_images new_images : list image_entry) :
  new_images = old_images -> changed old_images new_images = false.
Proof.
  intros ->. unfold changed.
  now rewrite !bool_decide_eq_false_2 by (intros Hne; now apply Hne).
Qed.

Lemma changed_true (old_images new_images : list image_entry) :
  new_images <> old_images -> changed old_images new_images = true.
Proof.
  intros Hne. unfold changed.
  rewrite (bool_decide_eq_true_2 (new_images ≠ old_images)) by exact Hne.
  apply orb_true_r.
Qed.

Section Refresh.

Variable E : env.

(** With the key gone from the store both handlers say so and stop. *)
Lemma get_images_revoked (chat_id : Z) (w : world) (key : string) :
  activation_key (session w) = Some key ->
  collection_find_one E (trace w) key = None ->
  exists r,
    (get_images E chat_id w).2
      = {| session := session w;
           trace := trace w ++ [EvFindOne key None;
                                EvEditMessageText revoked_text [] r] |}.
Proof.
  intros Hkey Hfind.
  unfold get_images, mbind, M_bind, get_session, find_one, ask,
    edit_message_text, call, log_event.
  rewrite Hkey, Hfind. simpl. rewrite <- app_assoc. simpl.
  destruct (query_edit_message_text E _ revoked_text []) as [mid|e] eqn:Hed;
    now eexists.
Qed.

Lemma refresh_images_revoked (chat_id : Z) (w : world) (key : string) :
  activation_key (session w) = Some key ->
  collection_find_one E (trace w) key = None ->
  exists r,
    (refresh_images E chat_id w).2
      = {| session := session w;
           trace := trace w ++ [EvFindOne key None;
                                EvEditMessageText revoked_text [] r] |}.
Proof.
  intros Hkey Hfind.
  unfold refresh_images, mbind, M_bind, get_session, find_one, ask,
    edit_message_text, call, log_event.
  rewrite Hkey, Hfind. simpl. rewrite <- app_assoc. simpl.
  destruct (query_edit_message_text E _ revoked_text []) as [mid|e] eqn:Hed;
    now eexists.
Qed.

(** A refresh that finds the same image links swaps the cached record for
    the fresh one, says so, and does nothing else. *)
Lemma refresh_images_unchanged (chat_id : Z) (w : world) (key : string)
    (doc : user_doc) :
  activation_key (session w) = Some key ->
  collection_find_one E (trace w) key = Some doc ->
  links_of (Some doc) = links_of (user_data (session w)) ->
  exists r,
    (refresh_images E chat_id w).2
      = {| session := set_user_data doc (session w);
           trace := trace w ++ [EvFindOne key (Some doc);
                                EvEditMessageText up_to_date_text
                                  full_keyboard r] |}.
Proof.
  intros Hkey Hfind Hsame.
  unfold refresh_images, mbind at 1 2, M_bind at 1 2, get_session, find_one,
    ask.
  rewrite Hkey, Hfind.
  unfold mbind at 1, M_bind at 1, modify_session.
  change (default [] (image_links doc)) with (links_of (Some doc)).
  change (default [] (user_data (session w) ≫= λ old, image_links old))
    with (links_of (user_data (session w))).
  rewrite (changed_false _ _ Hsame).
  unfold mbind, M_bind, edit_message_text, call, log_event. simpl.
  rewrite <- app_assoc. simpl.
  destruct (query_edit_message_text E _ up_to_date_text full_keyboard)
    as [mid|e]; now eexists.
Qed.

(** [get_images] with a key in the session looks the record up exactly
    once, and touches nothing in the session but the id list. *)
Lemma get_images_one_lookup (chat_id : Z) (w : world) (key : string) :
  activation_key (session w) = Some key ->
  exists r evs,
    trace (get_images E chat_id w).2
      = (trace w ++ EvFindOne key r :: evs)%list
    /\ Forall not_lookup evs
    /\ frame (session (get_images E chat_id w).2) = frame (session w).
Proof.
  intros Hkey.
  set (r := collection_find_one E (trace w) key).
  set (w1 := log_event (EvFindOne key r) w).
  set (rest := match r with
               | Some doc => deliver_doc E chat_id doc
               | None => _ ← edit_message_text E revoked_text []; mret tt
               end).
  assert (get_images E chat_id w = rest w1) as ->.
  { unfold get_images, mbind, M_bind, get_session. now rewrite Hkey. }
  assert (runs not_lookup rest) as Hruns.
  { subst rest. destruct r as [doc|]; [apply deliver_doc_runs|].
    apply runs_bind; [now apply runs_call|]. intros _. apply runs_ret. }
  destruct (Hruns w1) as [Hframe (evs & Ht & Hq)].
  exists r, evs. split; [|split].
  - rewrite Ht. simpl. now rewrite <- app_assoc.
  - exact Hq.
  - exact Hframe.
Qed.

(** A refresh that finds other image links and gets its notice out caches
    the fresh record, runs the cleanup pass, and hands over to
    [get_images]. *)
Lemma refresh_images_changed (chat_id : Z) (w : world) (key : string)
    (doc : user_doc) (notice : Z) :
  activation_key (session w) = Some key ->
  collection_find_one E (trace w) key = Some doc ->
  links_of (Some doc) <> links_of (user_data (session w)) ->
  query_edit_message_text E (trace w ++ [EvFindOne key (Some doc)])
    found_new_text [] = Returned notice ->
  exists cleanup,
    Forall cleanup_event cleanup
    /\ delete_attempts cleanup = default [] (image_message_ids (session w))
    /\ refresh_images E chat_id w
       = get_images E chat_id
           {| session := after_cleanup (set_user_data doc (session w));
              trace := trace w
                       ++ [EvFindOne key (Some doc);
                           EvEditMessageText found_new_text []
                             (Returned notice)]
                       ++ cleanup |}.
Proof.
  intros Hkey Hfind Hdiff Hnotice.
  unfold refresh_images, mbind at 1 2, M_bind at 1 2, get_session, find_one,
    ask.
  rewrite Hkey, Hfind.
  unfold mbind at 1, M_bind at 1, modify_session.
  change (default [] (image_links doc)) with (links_of (Some doc)).
  change (default [] (user_data (session w) ≫= λ old, image_links old))
    with (links_of (user_data (session w))).
  rewrite (changed_true _ _ Hdiff).
  unfold mbind at 1, M_bind at 1, edit_message_text, call.
  cbn [log_event trace session]. rewrite Hnotice.
  unfold mbind at 1, M_bind at 1.
  match goal with
  | |- context [clear_previous_images E chat_id ?w1] =>
      destruct (clear_previous_images_spec E chat_id w1)
        as (cleanup & -> & Hc & Hd)
  end.
  exists cleanup. split; [exact Hc|]. split; [exact Hd|].
  unfold log_event. cbn [session trace]. now rewrite <- !app_assoc.
Qed.

End Refresh.

(** ** Refresh, with and without a change *)

(** C1.  A refresh that finds other image links than the cached ones, once its
    notice is out, caches the fresh record, tries to delete every message id
    the session held, and then runs the whole of [get_images], which looks
    the record up again and delivers from what that second lookup finds: two
    lookups in all, never a third. *)
Theorem refresh_changed_runs_get_images (E : env) (chat_id : Z) (w : world)
    (key : string) (doc : user_doc) (notice : Z) :
  activation_key (session w) = Some key ->
  collection_find_one E (trace w) key = Some doc ->
  links_of (Some doc) <> links_of (user_data (session w)) ->
  query_edit_message_text E (trace w ++ [EvFindOne key (Some doc)])
    found_new_text [] = Returned notice ->
  let w' := (refresh_images E chat_id w).2 in
  user_data (session w') = Some doc
  /\ lookups (new_events w w') = 2%nat
  /\ exists cleanup,
       Forall cleanup_event cleanup
       /\ delete_attempts cleanup
          = default [] (image_message_ids (session w))
       /\ refresh_images E chat_id w
          = get_images E chat_id
              {| session := after_cleanup (set_user_data doc (session w));
                 trace := trace w
                          ++ [EvFindOne key (Some doc);
                              EvEditMessageText found_new_text []
                                (Returned notice)]
                          ++ cleanup |}.
Proof.
  intros Hkey Hfind Hdiff Hnotice w'.
  destruct (refresh_images_changed E chat_id w key doc notice
              Hkey Hfind Hdiff Hnotice) as (cleanup & Hc & Hd & Heq).
  subst w'. rewrite Heq.
  set (w1 := {| session := after_cleanup (set_user_data doc (session w));
                trace := _ |}).
  assert (frame (session w1) = frame (set_user_data doc (session w)))
    as Hf1 by apply frame_after_cleanup.
  assert (activation_key (session w1) = Some key) as Hkey1.
  { unfold frame in Hf1. inversion Hf1 as [[Ha Hb Hc' Hd' He]].
    etransitivity; [exact Ha|exact Hkey]. }
  destruct (get_images_one_lookup E chat_id w1 key Hkey1)
    as (r & evs & Ht & Hq & Hf).
  split; [|split].
  - rewrite Hf1 in Hf. unfold frame in Hf. now inversion Hf.
  - erewrite new_events_app; last first.
    { rewrite Ht. unfold w1. cbn [trace]. rewrite <- !app_assoc. reflexivity. }
    rewrite !lookups_app.
    rewrite (lookups_quiet cleanup)
      by (eapply Forall_impl; [exact Hc|apply cleanup_not_lookup]).
    change (EvFindOne key r :: evs) with ([EvFindOne key r] ++ evs)%list.
    rewrite lookups_app, (lookups_quiet evs Hq). reflexivity.
  - exists cleanup. now repeat split.
Qed.

Lemma refresh_changed_runs_get_images_witness :
  let w' := (refresh_images stale_env 5 stale_world).2 in
  (activation_key (session stale_world) = Some "K1"
   /\ collection_find_one stale_env (trace stale_world) "K1" = Some new_doc
   /\ links_of (Some new_doc) <> links_of (user_data (session stale_world)))
  /\ user_data (session w') = Some new_doc
  /\ lookups (new_events stale_world w') = 2%nat.
Proof.
  split; [vm_compute; repeat split; discriminate|].
  destruct (refresh_changed_runs_get_images stale_env 5 stale_world "K1"
              new_doc 1) as (Hdoc & Hlook & _);
    [reflexivity|reflexivity|discriminate|reflexivity|].
  split; [exact Hdoc|exact Hlook].
Defined.

(** The store answers [new_doc] to the refresh and [third_doc] to the
    lookup of [get_images]: the session caches [new_doc], whose images for
    the day are [1.png] and [3.png], and what is fetched and delivered is
    [9.png]. *)
Lemma refresh_delivers_second_lookup :
  let r := refresh_images shifting_env 5 stale_world in
  r.1 = Returned tt
  /\ collection_find_one shifting_env (trace stale_world) "K1" = Some new_doc
  /\ links_of (Some new_doc) <> links_of (user_data (session stale_world))
  /\ user_data (session r.2) = Some new_doc
  /\ filter_today "2024-01-02" (links_of (Some new_doc)) []
     = Returned ["http://a/1.png"; "http://a/3.png"]
  /\ fetched_urls (trace r.2) = ["http://b/9.png"]
  /\ lookups (trace r.2) = 2%nat.
Proof. vm_compute. repeat split; discriminate. Qed.

(** C5.  A refresh that finds the cached image links replaces the cached record
    by the fresh one all the same; the image links the session holds are
    equal before and after, every other field of the session is as it was,
    and the only call after the lookup is the edit that says nothing is
    new. *)
Theorem refresh_unchanged_swaps_record (E : env) (chat_id : Z) (w : world)
    (key : string) (doc : user_doc) :
  activation_key (session w) = Some key ->
  collection_find_one E (trace w) key = Some doc ->
  links_of (Some doc) = links_of (user_data (session w)) ->
  let w' := (refresh_images E chat_id w).2 in
  session w' = set_user_data doc (session w)
  /\ links_of (user_data (session w')) = links_of (user_data (session w))
  /\ exists r,
       new_events w w'
         = [EvFindOne key (Some doc);
            EvEditMessageText up_to_date_text full_keyboard r].
Proof.
  intros Hkey Hfind Hsame w'.
  destruct (refresh_images_unchanged E chat_id w key doc Hkey Hfind Hsame)
    as (r & Heq).
  subst w'. rewrite Heq. cbn [session trace]. split; [reflexivity|].
  split; [exact Hsame|]. exists r. now apply new_events_app.
Qed.

Lemma refresh_unchanged_swaps_record_witness :
  let w' := (refresh_images renamed_env 5 stale_world).2 in
  (activation_key (session stale_world) = Some "K1"
   /\ collection_find_one renamed_env (trace stale_world) "K1"
      = Some renamed_doc
   /\ links_of (Some renamed_doc) = links_of (user_data (session stale_world)))
  /\ session w' = set_user_data renamed_doc (session stale_world)
  /\ links_of (user_data (session w'))
     = links_of (user_data (session stale_world)).
Proof.
  split; [now vm_compute|].
  destruct (refresh_unchanged_swaps_record renamed_env 5 stale_world "K1"
              renamed_doc) as (Hs & Hl & _);
    [reflexivity|reflexivity|reflexivity|].
  split; [exact Hs|exact Hl].
Defined.

(** The links are the same and the name is not: the cached record after the
    refresh is the fresh one, not the one that was cached. *)
Lemma refresh_unchanged_replaces_cache :
  let r := refresh_images renamed_env 5 stale_world in
  r.1 = Returned tt
  /\ collection_find_one renamed_env (trace stale_world) "K1"
     = Some renamed_doc
  /\ links_of (Some renamed_doc) = links_of (user_data (session stale_world))
  /\ user_data (session stale_world) = Some old_doc
  /\ user_data (session r.2) = Some renamed_doc
  /\ user_data (session r.2) <> user_data (session stale_world).
Proof. vm_compute. repeat split; discriminate. Qed.

(** C6.  A refresh that finds the cached image links makes no delete call
    and sends no message, be it a photo, a text or a reply: its only calls
    are the lookup and the edit that says nothing is new.  The session's
    message ids are as they were. *)
Theorem refresh_unchanged_no_transport_effect (E : env) (chat_id : Z)
    (w : world) (key : string) (doc : user_doc) :
  activation_key (session w) = Some key ->
  collection_find_one E (trace w) key = Some doc ->
  links_of (Some doc) = links_of (user_data (session w)) ->
  let w' := (refresh_images E chat_id w).2 in
  Forall (fun ev => is_delete ev = false /\ is_send ev = false)
    (new_events w w')
  /\ (exists r,
         new_events w w'
           = [EvFindOne key (Some doc);
              EvEditMessageText up_to_date_text full_keyboard r])
  /\ image_message_ids (session w') = image_message_ids (session w).
Proof.
  intros Hkey Hfind Hsame w'.
  destruct (refresh_images_unchanged E chat_id w key doc Hkey Hfind Hsame)
    as (r & Heq).
  subst w'. rewrite Heq. cbn [session].
  erewrite new_events_app by reflexivity.
  split; [now repeat constructor|]. split; [now exists r|reflexivity].
Qed.

Lemma refresh_unchanged_no_transport_effect_witness :
  let w' := (refresh_images next_day_env 5 next_day_world).2 in
  (activation_key (session next_day_world) = Some "K1"
   /\ collection_find_one next_day_env (trace next_day_world) "K1"
      = Some dated_doc
   /\ links_of (Some dated_doc)
      = links_of (user_data (session next_day_world)))
  /\ Forall (fun ev => is_delete ev = false /\ is_send ev = false)
       (new_events next_day_world w')
  /\ (exists r,
         new_events next_day_world w'
           = [EvFindOne "K1" (Some dated_doc);
              EvEditMessageText up_to_date_text full_keyboard r])
  /\ image_message_ids (session w') = Some [41; 42].
Proof.
  split; [now vm_compute|].
  apply (refresh_unchanged_no_transport_effect next_day_env 5 next_day_world
           "K1" dated_doc); reflexivity.
Defined.

(** ** A key that no longer resolves *)

(** C9.  With a key in the session that the store no longer holds, [get_images]
    and [refresh_images] alike look the key up, edit the message to say the
    key is no longer valid, and stop: nothing is resolved, deleted or sent,
    and the session is left exactly as it was. *)
Theorem revoked_key_reported_session_kept (E : env) (chat_id : Z) (w : world)
    (key : string) :
  activation_key (session w) = Some key ->
  collection_find_one E (trace w) key = None ->
  (let w' := (get_images E chat_id w).2 in
   session w' = session w
   /\ exists r,
        new_events w w'
          = [EvFindOne key None; EvEditMessageText revoked_text [] r])
  /\ (let w' := (refresh_images E chat_id w).2 in
      session w' = session w
      /\ exists r,
           new_events w w'
             = [EvFindOne key None; EvEditMessageText revoked_text [] r]).
Proof.
  intros Hkey Hfind. split; intros w'; subst w'.
  - destruct (get_images_revoked E chat_id w key Hkey Hfind) as (r & ->).
    split; [reflexivity|]. exists r. now apply new_events_app.
  - destruct (refresh_images_revoked E chat_id w key Hkey Hfind) as (r & ->).
    split; [reflexivity|]. exists r. now apply new_events_app.
Qed.

Lemma revoked_key_reported_session_kept_witness :
  (activation_key (session stale_world) = Some "K1"
   /\ collection_find_one revoked_env (trace stale_world) "K1" = None)
  /\ session (get_images revoked_env 5 stale_world).2 = session stale_world
  /\ session (refresh_images revoked_env 5 stale_world).2
     = session stale_world.
Proof.
  split; [now vm_compute|].
  destruct (revoked_key_reported_session_kept revoked_env 5 stale_world "K1")
    as [[Hg _] [Hr _]]; [reflexivity|reflexivity|].
  split; [exact Hg|exact Hr].
Defined.

(** The key is gone from the store; after either handler the session still
    holds the key, the cached record and the rest: it is not cleared. *)
Lemma revoked_key_session_not_cleared :
  let g := get_images revoked_env 5 stale_world in
  let r := refresh_images revoked_env 5 stale_world in
  collection_find_one revoked_env (trace stale_world) "K1" = None
  /\ g.1 = Returned tt
  /\ activation_key (session g.2) = Some "K1"
  /\ session g.2 <> cleared
  /\ r.1 = Returned tt
  /\ activation_key (session r.2) = Some "K1"
  /\ session r.2 <> cleared.
Proof. vm_compute. repeat split; discriminate. Qed.

(** ** Logout *)

(** C2.  Both logout paths clear the session first, so the cleanup pass that
    follows finds no id list: whatever ids the session held, no delete is
    attempted, and the only call made is the one that confirms the logout.
    With [41] and [42] delivered, neither is the subject of a delete. *)
Theorem logout_deletes_nothing :
  (forall (E : env) (chat_id : Z) (w : world),
      (exists r,
          (logout_command E chat_id w).2
            = {| session := cleared;
                 trace := trace w ++ [EvReplyText logged_out_text [] r] |})
      /\ (exists r,
             (end_session E chat_id w).2
               = {| session := cleared;
                    trace := trace w
                             ++ [EvEditMessageText logged_out_text [] r] |})
      /\ delete_attempts (new_events w (logout_command E chat_id w).2) = []
      /\ delete_attempts (new_events w (end_session E chat_id w).2) = [])
  /\ image_message_ids (session next_day_world) = Some [41; 42]
  /\ delete_attempts (trace (logout_command next_day_env 5 next_day_world).2)
     = []
  /\ delete_attempts (trace (end_session next_day_env 5 next_day_world).2)
     = [].
Proof.
  split; [|now vm_compute].
  intros E chat_id w.
  assert (exists r,
             (logout_command E chat_id w).2
               = {| session := cleared;
                    trace := trace w ++ [EvReplyText logged_out_text [] r] |})
    as Hl.
  { unfold logout_command, mbind, M_bind, modify_session,
      clear_previous_images, get_session, reply_text, call, log_event.
    simpl. destruct (message_reply_text E _ _ _); now eexists. }
  assert (exists r,
             (end_session E chat_id w).2
               = {| session := cleared;
                    trace := trace w
                             ++ [EvEditMessageText logged_out_text [] r] |})
    as He.
  { unfold end_session, mbind, M_bind, modify_session,
      clear_previous_images, get_session, edit_message_text, call, log_event.
    simpl. destruct (query_edit_message_text E _ _ _); now eexists. }
  split; [exact Hl|]. split; [exact He|].
  destruct Hl as (r1 & ->), He as (r2 & ->).
  split; now erewrite new_events_app by reflexivity.
Qed.

(** ** Key validation *)

(** C3.  [validate_key] writes the trimmed input into the session before it looks
    it up, so the input is the session's activation key afterwards whether
    or not the store holds it.  A key the store does not hold is answered
    with the retry prompt and [WAITING_FOR_KEY], and is in the session all
    the same; entered into a session that was logged in under ["K1"], it
    replaces ["K1"]. *)
Theorem validate_key_stores_key_unvalidated :
  (forall (E : env) (text : string) (w : world),
      activation_key (session (validate_key E text w).2) = Some (strip text))
  /\ (let r := validate_key revoked_env " nope " world0 in
      collection_find_one revoked_env (trace world0) (strip " nope ") = None
      /\ r.1 = Returned WAITING_FOR_KEY
      /\ trace r.2 = [EvFindOne "nope" None;
                      EvReplyText invalid_key_text [] (Returned 1)]
      /\ activation_key (session r.2) = Some "nope")
  /\ (let r := validate_key revoked_env "nope" stale_world in
      activation_key (session stale_world) = Some "K1"
      /\ r.1 = Returned WAITING_FOR_KEY
      /\ activation_key (session r.2) = Some "nope").
Proof.
  split; [|now vm_compute].
  intros E text w.
  unfold validate_key, mbind, M_bind, modify_session, find_one, ask, now,
    get_session, reply_text, call, log_event.
  simpl. destruct (collection_find_one E (trace w) (strip text)); simpl.
  - now destruct (message_reply_text E _ _ _).
  - now destruct (message_reply_text E _ _ _).
Qed.

(** ** Entries the filter passes over *)

Lemma deliver_doc_links (E : env) (chat_id : Z) (doc : user_doc)
    (links : list image_entry) (w : world) :
  image_links doc = Some links ->
  links <> [] ->
  deliver_doc E chat_id doc w
    = match
        filter_today (strftime_ymd (datetime_now E (trace w))) links []
      with
      | Returned urls =>
          deliver_today E chat_id urls
            (log_event (EvNow (datetime_now E (trace w))) w)
      | Raised e => (Raised e, log_event (EvNow (datetime_now E (trace w))) w)
      end.
Proof.
  intros Hdoc Hne. unfold deliver_doc. rewrite Hdoc.
  destruct links as [|img rest]; [contradiction|].
  unfold default, id, mbind, M_bind, now, ask. cbv beta iota.
  now destruct (filter_today _ (img :: rest) []).
Qed.

(** C10.  An entry that is neither a string nor a dict with a ['date'] is passed
    over by the filter: the resolved list is the one of the record without
    the entry.  So is the delivery, when other entries remain: the same
    calls, the same captions and counts.  A record with only such an entry
    gets the notice that nothing is available today, and nothing is fetched
    or sent. *)
Theorem undated_dict_dropped (today : string) (pre post : list image_entry)
    (img : image_entry) :
  undated_non_string img ->
  (forall acc,
      filter_today today (pre ++ img :: post) acc
        = filter_today today (pre ++ post) acc)
  /\ (forall (E : env) (chat_id : Z) (doc1 doc2 : user_doc) (w : world),
         image_links doc1 = Some (pre ++ img :: post)%list ->
         image_links doc2 = Some (pre ++ post)%list ->
         (pre ++ post)%list <> [] ->
         deliver_doc E chat_id doc1 w = deliver_doc E chat_id doc2 w)
  /\ (forall (E : env) (chat_id : Z) (doc : user_doc) (w : world),
         image_links doc = Some [img] ->
         exists r,
           (deliver_doc E chat_id doc w).2
             = {| session := session w;
                  trace := trace w
                           ++ [EvNow (datetime_now E (trace w));
                               EvEditMessageText none_today_text
                                 refresh_keyboard r] |}).
Proof.
  intros Himg. split; [|split].
  - apply filter_today_skip, Himg.
  - intros E chat_id doc1 doc2 w H1 H2 Hne.
    rewrite (deliver_doc_links E chat_id doc1 _ w H1) by now destruct pre.
    rewrite (deliver_doc_links E chat_id doc2 _ w H2) by exact Hne.
    now rewrite (filter_today_skip _ _ _ _ Himg).
  - intros E chat_id doc w Hdoc.
    rewrite (deliver_doc_links E chat_id doc _ w Hdoc) by discriminate.
    pose proof (filter_today_skip (strftime_ymd (datetime_now E (trace w)))
                  [] [] img Himg []) as Hskip.
    simpl app in Hskip. rewrite Hskip.
    unfold filter_today, deliver_today, mbind, M_bind, edit_message_text,
      call, log_event.
    cbn [trace session]. rewrite <- app_assoc.
    destruct (query_edit_message_text E _ _ _); now eexists.
Qed.

Lemma undated_dict_dropped_witness :
  undated_non_string undated_entry
  /\ filter_today "2024-01-01"
       ([ImgStr "http://a/1.png"] ++ undated_entry
          :: [ImgStr "http://a/3.png"]) []
     = Returned ["http://a/1.png"; "http://a/3.png"].
Proof.
  assert (undated_non_string undated_entry) as Hu by now vm_compute.
  split; [exact Hu|].
  now rewrite (proj1 (undated_dict_dropped "2024-01-01"
                        [ImgStr "http://a/1.png"] [ImgStr "http://a/3.png"]
                        undated_entry Hu)).
Defined.

(** * Further properties of the handlers *)

(** ** The cleanup pass *)

Lemma delete_each_run (E : env) (chat_id : Z) (ids : list Z) (w : world) :
  exists evs,
    delete_each E chat_id ids w
      = (Returned tt,
         {| session := session w; trace := trace w ++ evs |})
    /\ cleanup_run chat_id ids evs.
Proof.
  revert w. induction ids as [|msg_id rest IH]; intros w.
  - exists []. simpl. rewrite app_nil_r. split; [now destruct w|constructor].
  - simpl delete_each.
    unfold mbind, M_bind, try_except, delete_message, call, logger.
    destruct (bot_delete_message E (trace w) chat_id msg_id) as [[]|e] eqn:Hd.
    + destruct (IH (log_event
                      (EvDeleteMessage chat_id msg_id (Returned tt)) w))
        as (evs & -> & Hrun).
      eexists (_ :: evs). simpl. rewrite <- app_assoc. simpl.
      split; [reflexivity|]. now constructor.
    + destruct (IH (log_event
                      (EvLog Warning
                         ("Could not delete message " ++ str_of_Z msg_id
                            ++ ": " ++ e))
                      (log_event
                         (EvDeleteMessage chat_id msg_id (Raised e)) w)))
        as (evs & -> & Hrun).
      eexists (_ :: _ :: evs). simpl. rewrite <- !app_assoc. simpl.
      split; [reflexivity|]. now constructor.
Qed.

Lemma clear_previous_images_run (E : env) (chat_id : Z) (w : world) :
  exists evs,
    clear_previous_images E chat_id w
      = (Returned tt,
         {| session := after_cleanup (session w); trace := trace w ++ evs |})
    /\ cleanup_run chat_id (default [] (image_message_ids (session w))) evs.
Proof.
  unfold clear_previous_images, after_cleanup, mbind, M_bind, get_session.
  destruct (image_message_ids (session w)) as [[|msg_id rest]|] eqn:Hids.
  - exists []. rewrite app_nil_r. split; [now destruct w|constructor].
  - destruct (delete_each_run E chat_id (msg_id :: rest) w)
      as (evs & -> & Hrun).
    exists evs. now unfold modify_session.
  - exists []. rewrite app_nil_r. split; [now destruct w|constructor].
Qed.

Lemma cleanup_run_attempts (chat_id : Z) (ids : list Z) (evs : list event) :
  cleanup_run chat_id ids evs ->
  Forall cleanup_event evs /\ delete_attempts evs = ids.
Proof.
  induction 1 as [|msg_id rest evs _ [IHc IHd]|msg_id e rest evs _ [IHc IHd]].
  - now split.
  - split; [now constructor|]. simpl. now rewrite IHd.
  - split; [now repeat constructor|]. simpl. now rewrite IHd.
Qed.

(** X1.  [clear_previous_images] never raises, whatever the transport does:
    it tries to delete every id the session holds, once each and in order;
    a delete that fails is followed by the warning that names the id and
    the reason, and the pass goes on with the next id; it makes no other
    call, leaves no id in the session, and touches no other field. *)
Theorem cleanup_attempts_every_id (E : env) (chat_id : Z) (w : world) :
  let r := clear_previous_images E chat_id w in
  r.1 = Returned tt
  /\ cleanup_run chat_id (default [] (image_message_ids (session w)))
       (new_events w r.2)
  /\ delete_attempts (new_events w r.2)
     = default [] (image_message_ids (session w))
  /\ Forall cleanup_event (new_events w r.2)
  /\ frame (session r.2) = frame (session w)
  /\ default [] (image_message_ids (session r.2)) = [].
Proof.
  destruct (clear_previous_images_run E chat_id w) as (evs & Heq & Hrun).
  destruct (cleanup_run_attempts _ _ _ Hrun) as [Hc Hd].
  cbn zeta. rewrite Heq. cbn [fst snd session].
  erewrite new_events_app by reflexivity.
  repeat split; try assumption.
  - apply frame_after_cleanup.
  - unfold after_cleanup.
    now destruct (image_message_ids (session w)) as [[|? ?]|] eqn:Hids;
      cbn; rewrite ?Hids.
Qed.

(** X2.  A second cleanup pass right after a first one does nothing at all:
    no call, no change. *)
Theorem cleanup_twice_is_once (E : env) (chat_id : Z) (w : world) :
  let w1 := (clear_previous_images E chat_id w).2 in
  clear_previous_images E chat_id w1 = (Returned tt, w1).
Proof.
  destruct (clear_previous_images_spec E chat_id w) as (evs & Heq & _ & _).
  cbn zeta. rewrite Heq. cbn [snd].
  unfold clear_previous_images, mbind, M_bind, get_session, after_cleanup.
  cbn [session].
  now destruct (image_message_ids (session w)) as [[|? ?]|] eqn:Hids;
    cbn; rewrite ?Hids.
Qed.

(** ** Sessions without a key, records without images *)

Lemma get_images_expired (E : env) (chat_id : Z) (w : world) :
  activation_key (session w) = None ->
  exists r,
    (get_images E chat_id w).2
      = {| session := session w;
           trace := trace w ++ [EvEditMessageText expired_text [] r] |}.
Proof.
  intros Hkey.
  unfold get_images, mbind, M_bind, get_session, edit_message_text, call,
    log_event.
  rewrite Hkey. destruct (query_edit_message_text E _ _ _); now eexists.
Qed.

Lemma refresh_images_expired (E : env) (chat_id : Z) (w : world) :
  activation_key (session w) = None ->
  exists r,
    (refresh_images E chat_id w).2
      = {| session := session w;
           trace := trace w ++ [EvEditMessageText expired_text [] r] |}.
Proof.
  intros Hkey.
  unfold refresh_images, mbind, M_bind, get_session, edit_message_text, call,
    log_event.
  rewrite Hkey. destruct (query_edit_message_text E _ _ _); now eexists.
Qed.

(** X3.  Without an activation key in the session, [get_images] and
    [refresh_images] only edit the message to say the session has expired:
    the record store is not asked, and the session is not touched. *)
Theorem no_key_no_lookup (E : env) (chat_id : Z) (w : world) :
  activation_key (session w) = None ->
  (let w' := (get_images E chat_id w).2 in
   session w' = session w
   /\ exists r, new_events w w' = [EvEditMessageText expired_text [] r])
  /\ (let w' := (refresh_images E chat_id w).2 in
      session w' = session w
      /\ exists r, new_events w w' = [EvEditMessageText expired_text [] r]).
Proof.
  intros Hkey. split; cbn zeta.
  - destruct (get_images_expired E chat_id w Hkey) as (r & ->).
    split; [reflexivity|]. exists r. now apply new_events_app.
  - destruct (refresh_images_expired E chat_id w Hkey) as (r & ->).
    split; [reflexivity|]. exists r. now apply new_events_app.
Qed.

Lemma no_key_no_lookup_witness :
  activation_key (session world0) = None
  /\ session (get_images three_env 5 world0).2 = session world0
  /\ session (refresh_images three_env 5 world0).2 = session world0.
Proof.
  split; [reflexivity|].
  destruct (no_key_no_lookup three_env 5 world0) as [[Hg _] [Hr _]];
    [reflexivity|].
  split; [exact Hg|exact Hr].
Defined.

(** X4.  When the record found has no [image_links] field, or an empty one,
    [get_images] tells the user that no images were found and offers the
    refresh button; it reads no clock, deletes and sends nothing, and leaves
    the session, ids included, as it was. *)
Theorem no_links_only_notice (E : env) (chat_id : Z) (w : world)
    (key : string) (doc : user_doc) :
  activation_key (session w) = Some key ->
  collection_find_one E (trace w) key = Some doc ->
  links_of (Some doc) = [] ->
  let w' := (get_images E chat_id w).2 in
  session w' = session w
  /\ exists r,
       new_events w w'
         = [EvFindOne key (Some doc);
            EvEditMessageText no_images_text refresh_keyboard r].
Proof.
  intros Hkey Hfind Hnone. cbn zeta.
  rewrite (get_images_found E chat_id w key doc Hkey Hfind).
  unfold links_of in Hnone. cbn [mbind option_bind] in Hnone.
  unfold deliver_doc. rewrite Hnone.
  unfold mbind, M_bind, edit_message_text, call, log_event. cbn [trace session].
  destruct (query_edit_message_text E _ _ _) as [mid|e]; cbn [snd session];
    (split; [reflexivity|]); eexists; apply new_events_app; cbn [trace];
    now rewrite <- app_assoc.
Qed.

Lemma no_links_only_notice_witness :
  let w' := (get_images bare_env 5 bare_world).2 in
  (activation_key (session bare_world) = Some "K1"
   /\ collection_find_one bare_env (trace bare_world) "K1" = Some bare_doc
   /\ links_of (Some bare_doc) = [])
  /\ session w' = session bare_world
  /\ exists r,
       new_events bare_world w'
         = [EvFindOne "K1" (Some bare_doc);
            EvEditMessageText no_images_text refresh_keyboard r].
Proof.
  split; [now vm_compute|].
  apply (no_links_only_notice bare_env 5 bare_world "K1" bare_doc);
    reflexivity.
Defined.

(** X5.  When the record has image links and none of them resolves for the
    day, [get_images] says that nothing is available today and stops before
    the cleanup: the messages delivered earlier stay in the chat and their
    ids stay in the session. *)
Theorem none_today_keeps_messages (E : env) (chat_id : Z) (w : world)
    (key : string) (doc : user_doc) :
  activation_key (session w) = Some key ->
  collection_find_one E (trace w) key = Some doc ->
  links_of (Some doc) <> [] ->
  resolved E w key doc = Returned [] ->
  let w' := (get_images E chat_id w).2 in
  session w' = session w
  /\ exists t r,
       new_events w w'
         = [EvFindOne key (Some doc); EvNow t;
            EvEditMessageText none_today_text refresh_keyboard r].
Proof.
  intros Hkey Hfind Hlinks Hres. cbn zeta.
  rewrite (get_images_found E chat_id w key doc Hkey Hfind).
  unfold resolved in Hres. unfold links_of in Hlinks, Hres.
  cbn [mbind option_bind] in Hlinks, Hres.
  destruct (image_links doc) as [links|] eqn:Hdoc; [|contradiction].
  cbn [default id] in Hlinks, Hres.
  rewrite (deliver_doc_links E chat_id doc links _ Hdoc Hlinks).
  cbn [log_event trace]. rewrite Hres.
  unfold deliver_today, mbind, M_bind, edit_message_text, call, log_event.
  cbn [trace session].
  destruct (query_edit_message_text E _ _ _) as [mid|e]; cbn [snd session];
    (split; [reflexivity|]); eexists _, _; apply new_events_app; cbn [trace];
    now rewrite <- !app_assoc.
Qed.

Lemma none_today_keeps_messages_witness :
  let w' := (get_images next_day_env 5 next_day_world).2 in
  (activation_key (session next_day_world) = Some "K1"
   /\ collection_find_one next_day_env (trace next_day_world) "K1"
      = Some dated_doc
   /\ links_of (Some dated_doc) <> []
   /\ resolved next_day_env next_day_world "K1" dated_doc = Returned [])
  /\ session w' = session next_day_world
  /\ image_message_ids (session w') = Some [41; 42].
Proof.
  split; [vm_compute; repeat split; discriminate|].
  destruct (none_today_keeps_messages next_day_env 5 next_day_world "K1"
              dated_doc) as [Hs _];
    [reflexivity|reflexivity|discriminate|reflexivity|].
  split; [exact Hs|]. now rewrite Hs.
Defined.

(** ** Key validation *)

(** X6.  When the store holds the trimmed input, [validate_key] leaves a
    session made of that key, the record's id, its name (["User"] when it
    has none), the record itself, an empty id list and the time read right
    after the lookup.  It makes one lookup, greets the user by that name
    and, unless the greeting fails, ends the conversation.  Ids held from an
    earlier login are dropped without a delete. *)
Theorem validate_key_found_logs_in (E : env) (text : string) (w : world)
    (doc : user_doc) :
  collection_find_one E (trace w) (strip text) = Some doc ->
  let key := strip text in
  let t := datetime_now E (trace w ++ [EvFindOne key (Some doc)]) in
  let r := validate_key E text w in
  session r.2
    = {| activation_key := Some key;
         user_id := Some (_id doc);
         user_name := Some (default "User" (name doc));
         user_data := Some doc;
         image_message_ids := Some [];
         last_updated := Some t |}
  /\ exists a,
       new_events w r.2
         = [EvFindOne key (Some doc); EvNow t;
            EvReplyText (welcome_text (default "User" (name doc)))
              main_keyboard a]
       /\ r.1 = match a with
                | Returned _ => Returned END
                | Raised e => Raised e
                end.
Proof.
  intros Hfind. cbn zeta.
  unfold validate_key, mbind, M_bind, modify_session, find_one, now, ask,
    get_session, reply_text, call, log_event.
  cbn [trace session]. rewrite Hfind.
  cbn [trace session user_name set_last_updated default].
  match goal with
  | |- context [message_reply_text E ?h ?txt ?kb] =>
      destruct (message_reply_text E h txt kb) as [mid|e] eqn:Hreply
  end;
    cbn [fst snd session trace]; (split; [reflexivity|]);
    eexists; (split; [apply new_events_app; cbn [trace];
                      now rewrite <- !app_assoc|reflexivity]).
Qed.

Lemma validate_key_found_logs_in_witness :
  let r := validate_key three_env "  K1 " next_day_world in
  collection_find_one three_env (trace next_day_world) (strip "  K1 ")
    = Some three_doc
  /\ session r.2 = logged_in three_doc [] day1
  /\ r.1 = Returned END.
Proof.
  split; [reflexivity|].
  destruct (validate_key_found_logs_in three_env "  K1 " next_day_world
              three_doc) as (Hs & a & Hev & Hr); [reflexivity|].
  split; [exact Hs|]. rewrite Hr.
  assert (a = Returned 2) as -> by (vm_compute in Hev; congruence).
  reflexivity.
Defined.

Section Strip.
Variable ws : list (list ascii).
Hypothesis ws_nonempty : Forall (fun w => w <> []) ws.

Lemma drop_prefix_Some (w l r : list ascii) :
  drop_prefix w l = Some r -> l = (w ++ r)%list.
Proof.
  revert l. induction w as [|a w IH]; intros l; simpl.
  - now intros [= ->].
  - destruct l as [|b l]; [discriminate|].
    destruct (Ascii.eqb a b) eqn:Hab; [|discriminate].
    apply Ascii.eqb_eq in Hab as ->. intros Hd. now rewrite (IH l Hd).
Qed.

Lemma drop_prefix_app (w r : list ascii) : drop_prefix w (w ++ r) = Some r.
Proof.
  induction w as [|a w IH]; [reflexivity|]. simpl.
  now rewrite Ascii.eqb_refl.
Qed.

Lemma drop_first_Some (l r : list ascii) :
  drop_first ws l = Some r -> exists w, In w ws /\ l = (w ++ r)%list.
Proof.
  clear ws_nonempty. induction ws as [|w rest IH]; simpl; [discriminate|].
  destruct (drop_prefix w l) as [r'|] eqn:Hw.
  - intros [= ->]. exists w. split; [now left|]. now apply drop_prefix_Some.
  - intros Hrest. destruct (IH Hrest) as (w' & Hin & ->).
    exists w'. split; [now right|reflexivity].
Qed.

Lemma drop_first_matches (w l r : list ascii) :
  In w ws -> drop_prefix w l = Some r -> drop_first ws l <> None.
Proof.
  clear ws_nonempty. induction ws as [|w0 rest IH]; simpl; [contradiction|].
  intros [->|Hin] Hw.
  - now rewrite Hw.
  - destruct (drop_prefix w0 l); [discriminate|]. now apply IH.
Qed.

(** What begins with one of [ws] still does when it is continued. *)
Lemma drop_first_app (l q : list ascii) :
  drop_first ws l <> None -> drop_first ws (l ++ q) <> None.
Proof.
  destruct (drop_first ws l) as [r|] eqn:Hl; [|contradiction]. intros _.
  destruct (drop_first_Some l r Hl) as (w & Hin & ->).
  apply (drop_first_matches w _ (r ++ q)%list Hin).
  rewrite <- app_assoc. apply drop_prefix_app.
Qed.

Lemma lstrip_by_suffix (n : nat) (l : list ascii) :
  exists p, l = (p ++ lstrip_by ws n l)%list.
Proof.
  revert l. induction n as [|n IH]; intros l; simpl; [now exists []|].
  destruct (drop_first ws l) as [r|] eqn:Hl; [|now exists []].
  destruct (drop_first_Some l r Hl) as (w & _ & ->).
  destruct (IH r) as (p & Hp). exists (w ++ p)%list.
  rewrite <- app_assoc. now rewrite <- Hp.
Qed.

Lemma lstrip_by_fixed (n : nat) (l : list ascii) :
  drop_first ws l = None -> lstrip_by ws n l = l.
Proof. intros Hl. destruct n; simpl; [reflexivity|]. now rewrite Hl. Qed.

Lemma lstrip_by_clean (n : nat) (l : list ascii) :
  (length l <= n)%nat -> drop_first ws (lstrip_by ws n l) = None.
Proof.
  revert l. induction n as [|n IH]; intros l Hlen; simpl.
  - destruct l; [|simpl in Hlen; lia].
    destruct (drop_first ws []) as [r|] eqn:Hl; [|reflexivity].
    destruct (drop_first_Some [] r Hl) as (w & Hin & Heq).
    pose proof (proj1 (List.Forall_forall _ _) ws_nonempty w Hin) as Hw.
    destruct w; [contradiction|discriminate].
  - destruct (drop_first ws l) as [r|] eqn:Hl; [|exact Hl].
    apply IH. destruct (drop_first_Some l r Hl) as (w & Hin & ->).
    pose proof (proj1 (List.Forall_forall _ _) ws_nonempty w Hin) as Hw.
    rewrite length_app in Hlen. destruct w; [contradiction|].
    simpl in Hlen. lia.
Qed.

End Strip.

Lemma whitespace_nonempty : Forall (fun w => w <> []) whitespace.
Proof. repeat constructor; discriminate. Qed.

Lemma whitespace_rev_nonempty :
  Forall (fun w => w <> []) (map (@rev ascii) whitespace).
Proof. repeat constructor; discriminate. Qed.

Lemma lstrip_bytes_clean (l : list ascii) :
  drop_first whitespace (lstrip_bytes l) = None.
Proof. apply lstrip_by_clean; [apply whitespace_nonempty|reflexivity]. Qed.

Lemma rstrip_bytes_clean (l : list ascii) :
  drop_first (map (@rev ascii) whitespace) (rev (rstrip_bytes l)) = None.
Proof.
  unfold rstrip_bytes. rewrite rev_involutive.
  apply lstrip_by_clean; [apply whitespace_rev_nonempty|].
  now rewrite length_rev.
Qed.

Lemma rstrip_bytes_prefix (l : list ascii) :
  exists q, l = (rstrip_bytes l ++ q)%list.
Proof.
  unfold rstrip_bytes.
  destruct (lstrip_by_suffix (map (@rev ascii) whitespace) (length l) (rev l))
    as (p & Hp).
  exists (rev p). rewrite <- rev_app_distr, <- Hp. now rewrite rev_involutive.
Qed.

Lemma rstrip_bytes_fixed (l : list ascii) :
  drop_first (map (@rev ascii) whitespace) (rev l) = None ->
  rstrip_bytes l = l.
Proof.
  intros Hl. unfold rstrip_bytes. rewrite lstrip_by_fixed by exact Hl.
  apply rev_involutive.
Qed.

Lemma strip_bytes (s : string) :
  strip s
  = string_of_list_ascii
      (rstrip_bytes (lstrip_bytes (list_ascii_of_string s))).
Proof.
  unfold strip, rstrip, lstrip.
  now rewrite list_ascii_of_string_of_list_ascii.
Qed.

(** X7.  Trimming is idempotent and leaves whitespace at neither end, so
    [validate_key] cannot tell an input from its trimmed form: it makes the
    same calls and leaves the same session for both. *)
Theorem validate_key_ignores_outer_whitespace (text : string) :
  strip (strip text) = strip text
  /\ starts_with_space (strip text) = false
  /\ ends_with_space (strip text) = false
  /\ forall (E : env) (w : world),
       validate_key E (strip text) w = validate_key E text w.
Proof.
  assert (strip (strip text) = strip text
          /\ starts_with_space (strip text) = false
          /\ ends_with_space (strip text) = false) as (Hidem & Hhead & Htail).
  { rewrite !strip_bytes.
    set (y := lstrip_bytes (list_ascii_of_string text)).
    set (z := rstrip_bytes y).
    assert (drop_first whitespace z = None) as Hz.
    { destruct (drop_first whitespace z) as [r|] eqn:Hr; [|reflexivity].
      exfalso. destruct (rstrip_bytes_prefix y) as (q & Hq). fold z in Hq.
      apply (drop_first_app whitespace z q); [now rewrite Hr|].
      rewrite <- Hq. apply lstrip_bytes_clean. }
    assert (drop_first (map (@rev ascii) whitespace) (rev z) = None) as Hz'
      by apply rstrip_bytes_clean.
    rewrite !list_ascii_of_string_of_list_ascii.
    split; [|split].
    - f_equal. unfold lstrip_bytes. rewrite lstrip_by_fixed by exact Hz.
      now apply rstrip_bytes_fixed.
    - unfold starts_with_space.
      rewrite list_ascii_of_string_of_list_ascii, Hz.
      apply bool_decide_eq_false_2. now intros [? ?].
    - unfold ends_with_space.
      rewrite list_ascii_of_string_of_list_ascii, Hz'.
      apply bool_decide_eq_false_2. now intros [? ?]. }
  split; [exact Hidem|]. split; [exact Hhead|]. split; [exact Htail|].
  intros E w. unfold validate_key. now rewrite Hidem.
Qed.

(** ** The order of a delivery *)

Lemma fetched_urls_app (h1 h2 : list event) :
  fetched_urls (h1 ++ h2) = (fetched_urls h1 ++ fetched_urls h2)%list.
Proof.
  induction h1 as [|ev h1 IH]; [reflexivity|].
  destruct ev; simpl; now rewrite ?IH.
Qed.

Lemma photo_captions_app (h1 h2 : list event) :
  photo_captions (h1 ++ h2) = (photo_captions h1 ++ photo_captions h2)%list.
Proof.
  induction h1 as [|ev h1 IH]; [reflexivity|].
  destruct ev; simpl; now rewrite ?IH.
Qed.

Lemma cleanup_before_batch (evs : list event) :
  Forall cleanup_event evs -> Forall before_batch evs.
Proof. intros Hc. eapply Forall_impl; [exact Hc|]. now intros []. Qed.

Lemma before_batch_quiet (evs : list event) :
  Forall before_batch evs ->
  fetched_urls evs = [] /\ photo_captions evs = [].
Proof.
  induction 1 as [|ev evs Hev _ [IHf IHp]]; [now split|].
  now destruct ev.
Qed.

(** A batch fetches each of its URLs once, in order. *)
Lemma batch_fetched_urls (chat_id : Z) (total i : nat) (urls : list string)
    (evs : list event) (ids : list Z) :
  batch_sent chat_id total i urls evs ids -> fetched_urls evs = urls.
Proof.
  induction 1 as [i|i img_url rest evs1 evs2 mid ids H1 _ IH];
    [reflexivity|].
  rewrite fetched_urls_app, IH. now destruct H1.
Qed.

(** The photos of a batch carry the captions of their positions. *)
Lemma batch_photo_captions (chat_id : Z) (total i : nat)
    (urls : list string) (evs : list event) (ids : list Z) :
  batch_sent chat_id total i urls evs ids ->
  sublist (photo_captions evs) (captions_from total i (length urls)).
Proof.
  induction 1 as [i|i img_url rest evs1 evs2 mid ids H1 _ IH].
  - constructor.
  - rewrite photo_captions_app. unfold captions_from in *. simpl.
    destruct H1; simpl; now constructor.
Qed.

(** X8.  In a [get_images] that returns with something resolved, every id
    the session held is the subject of a delete before the first image is
    fetched or sent; the one delete after that removes the status line
    ["Sending n images..."]. *)
Theorem delivery_cleans_up_before_sending (E : env) (chat_id : Z)
    (w w' : world) (key : string) (doc : user_doc) (urls : list string) :
  activation_key (session w) = Some key ->
  collection_find_one E (trace w) key = Some doc ->
  resolved E w key doc = Returned urls ->
  urls <> [] ->
  get_images E chat_id w = (Returned tt, w') ->
  exists (before after : list event) (status : Z),
    new_events w w' = (before ++ after)%list
    /\ Forall before_batch before
    /\ delete_attempts before = default [] (image_message_ids (session w))
    /\ In (EvEditMessageText (sending_text (length urls)) []
             (Returned status)) before
    /\ fetched_urls after = urls
    /\ delete_attempts after = [status].
Proof.
  intros Hkey Hfind Hres Hne Hrun.
  destruct (get_images_success E _ _ _ _ _ _ Hkey Hfind Hres Hne Hrun)
    as (t & evs & Hnew & Hd).
  destruct Hd as (status & ctl & cleanup & loop & ids & -> & Hc & Hdel & Hb & _).
  destruct (batch_sent_ids _ _ _ _ _ _ Hb) as [Hids _].
  assert (Forall loop_event loop) as Hloop.
  { clear -Hb. induction Hb as [i|i img_url rest evs1 evs2 mid ids H1 _ IH];
      [constructor|].
    apply Forall_app. split; [|exact IH]. destruct H1; now repeat constructor. }
  exists ([EvFindOne key (Some doc); EvNow t;
           EvEditMessageText (sending_text (length urls)) []
             (Returned status)] ++ cleanup)%list,
    (loop ++ [EvDeleteMessage chat_id status (Returned tt);
              EvSendMessage chat_id delivered_text full_keyboard
                (Returned ctl)])%list,
    status.
  split; [rewrite Hnew; simpl; now rewrite <- ?app_assoc|].
  split.
  { apply Forall_app. split; [now repeat constructor|].
    now apply cleanup_before_batch. }
  split; [exact Hdel|]. split; [simpl; tauto|].
  split.
  - rewrite fetched_urls_app, (batch_fetched_urls _ _ _ _ _ _ Hb). simpl.
    apply app_nil_r.
  - now rewrite delete_attempts_app, (loop_delete_attempts loop Hloop).
Qed.

Lemma delivery_cleans_up_before_sending_witness :
  let w' := (get_images three_env 5 three_world).2 in
  (activation_key (session three_world) = Some "K1"
   /\ collection_find_one three_env (trace three_world) "K1" = Some three_doc
   /\ get_images three_env 5 three_world = (Returned tt, w'))
  /\ exists (before after : list event) (status : Z),
       new_events three_world w' = (before ++ after)%list
       /\ Forall before_batch before
       /\ delete_attempts before = []
       /\ In (EvEditMessageText (sending_text 3) [] (Returned status)) before
       /\ fetched_urls after
          = ["http://a/1.png"; "http://a/2.png"; "http://a/3.png"]
       /\ delete_attempts after = [status].
Proof.
  split; [now vm_compute|].
  apply (delivery_cleans_up_before_sending three_env 5 three_world _ "K1"
           three_doc ["http://a/1.png"; "http://a/2.png"; "http://a/3.png"]);
    [reflexivity|reflexivity|reflexivity|discriminate|now vm_compute].
Defined.

(** X9.  Of two deliveries in a row that both return with something
    resolved, the second tries to delete exactly the messages the first put
    in the chat, in the order they were sent, and then its own status
    line: the message its ["Sending n images..."] edit returned. *)
Theorem redelivery_deletes_previous_batch (E : env) (chat_id : Z)
    (w w1 w2 : world) (key : string) (doc1 doc2 : user_doc)
    (urls1 urls2 : list string) :
  activation_key (session w) = Some key ->
  collection_find_one E (trace w) key = Some doc1 ->
  resolved E w key doc1 = Returned urls1 ->
  urls1 <> [] ->
  get_images E chat_id w = (Returned tt, w1) ->
  collection_find_one E (trace w1) key = Some doc2 ->
  resolved E w1 key doc2 = Returned urls2 ->
  urls2 <> [] ->
  get_images E chat_id w1 = (Returned tt, w2) ->
  exists status,
    In (EvEditMessageText (sending_text (length urls2)) [] (Returned status))
      (new_events w1 w2)
    /\ delete_attempts (new_events w1 w2)
       = (sent_ids (new_events w w1) ++ [status])%list.
Proof.
  intros Hkey Hfind1 Hres1 Hne1 Hrun1 Hfind2 Hres2 Hne2 Hrun2.
  destruct (get_images_success E _ _ _ _ _ _ Hkey Hfind1 Hres1 Hne1 Hrun1)
    as (t1 & evs1 & Hnew1 & Hd1).
  destruct (delivery_run_ids _ _ _ _ _ Hd1) as (Hids1 & _ & Hframe1).
  assert (activation_key (session w1) = Some key) as Hkey1.
  { unfold frame in Hframe1. inversion Hframe1 as [[Ha Hb Hc Hd He]].
    etransitivity; [exact Ha|exact Hkey]. }
  destruct (get_images_success E _ _ _ _ _ _ Hkey1 Hfind2 Hres2 Hne2 Hrun2)
    as (t2 & evs2 & Hnew2 & Hd2).
  destruct Hd2 as (status & ctl & cleanup & loop & ids & -> & Hc & Hdel & Hb & _).
  assert (Forall loop_event loop) as Hloop.
  { clear -Hb. induction Hb as [i|i img_url rest e1 e2 mid ids H1 _ IH];
      [constructor|].
    apply Forall_app. split; [|exact IH]. destruct H1; now repeat constructor. }
  exists status. rewrite Hnew2. split; [simpl; tauto|]. simpl.
  rewrite !delete_attempts_app, Hdel, (loop_delete_attempts loop Hloop).
  rewrite Hids1, Hnew1, sent_ids_app. reflexivity.
Qed.

Lemma redelivery_deletes_previous_batch_witness :
  let w1 := (get_images three_env 5 three_world).2 in
  let w2 := (get_images three_env 5 w1).2 in
  (get_images three_env 5 three_world = (Returned tt, w1)
   /\ get_images three_env 5 w1 = (Returned tt, w2)
   /\ sent_ids (new_events three_world w1) = [4; 7; 9])
  /\ exists status,
       In (EvEditMessageText (sending_text 3) [] (Returned status))
         (new_events w1 w2)
       /\ delete_attempts (new_events w1 w2)
          = (sent_ids (new_events three_world w1) ++ [status])%list.
Proof.
  split; [now vm_compute|].
  apply (redelivery_deletes_previous_batch three_env 5 three_world _ _ "K1"
           three_doc three_doc
           ["http://a/1.png"; "http://a/2.png"; "http://a/3.png"]
           ["http://a/1.png"; "http://a/2.png"; "http://a/3.png"]);
    try reflexivity; try discriminate; now vm_compute.
Defined.

Lemma captions_by_fetch_app (h1 h2 : list event) (k : nat) :
  captions_by_fetch (h1 ++ h2) k
  = (captions_by_fetch h1 k
     ++ captions_by_fetch h2 (k + length (fetched_urls h1)))%list.
Proof.
  revert k. induction h1 as [|ev h1 IH]; intros k.
  - simpl. now rewrite Nat.add_0_r.
  - destruct ev; simpl; rewrite IH; try reflexivity.
    now rewrite Nat.add_succ_r.
Qed.

Lemma before_batch_no_captions (evs : list event) (k : nat) :
  Forall before_batch evs -> captions_by_fetch evs k = [].
Proof. induction 1 as [|ev evs Hev _ IH]; [reflexivity|]. now destruct ev. Qed.

(** In a batch that starts at position [i], a photo that comes after the
    [k]-th fetch is the photo of the [k]-th URL and is captioned with [k]. *)
Lemma batch_captions_by_fetch (chat_id : Z) (total i : nat)
    (urls : list string) (evs : list event) (ids : list Z) :
  batch_sent chat_id total i urls evs ids ->
  Forall (fun p => p.2 = caption_text (pred p.1) total
                   /\ (i < p.1 <= i + length urls)%nat)
    (captions_by_fetch evs i).
Proof.
  induction 1 as [i|i img_url rest evs1 evs2 mid ids H1 _ IH];
    [constructor|].
  rewrite captions_by_fetch_app. apply Forall_app. split.
  - destruct H1; simpl; repeat constructor; simpl; lia.
  - assert (length (fetched_urls evs1) = 1%nat) as -> by now destruct H1.
    rewrite Nat.add_1_r. eapply Forall_impl; [exact IH|].
    intros p [Hc Hk]. split; [exact Hc|]. simpl. lia.
Qed.

(** X10.  A [get_images] that returns with [n >= 1] URLs resolved fetched
    each of them once, in the resolved order, whether or not the fetches
    succeeded; and every photo it tried to send comes after the fetch of
    its URL and is captioned [Image k/n] with [k] the 1-based position of
    that URL, so a failed item leaves a gap in the numbers rather than
    shifting them. *)
Theorem delivery_fetches_each_url_once (E : env) (chat_id : Z)
    (w w' : world) (key : string) (doc : user_doc) (urls : list string) :
  activation_key (session w) = Some key ->
  collection_find_one E (trace w) key = Some doc ->
  resolved E w key doc = Returned urls ->
  urls <> [] ->
  get_images E chat_id w = (Returned tt, w') ->
  fetched_urls (new_events w w') = urls
  /\ Forall (fun p => p.2 = caption_text (pred p.1) (length urls)
                      /\ (1 <= p.1 <= length urls)%nat)
       (captions_by_fetch (new_events w w') 0)
  /\ sublist (photo_captions (new_events w w'))
       (captions_from (length urls) 0 (length urls)).
Proof.
  intros Hkey Hfind Hres Hne Hrun.
  destruct (get_images_success E _ _ _ _ _ _ Hkey Hfind Hres Hne Hrun)
    as (t & evs & -> & Hd).
  destruct Hd as (status & ctl & cleanup & loop & ids & -> & Hc & _ & Hb & _).
  pose proof (cleanup_before_batch _ Hc) as Hbefore.
  destruct (before_batch_quiet cleanup Hbefore) as [Hcf Hcp].
  split; [|split].
  - simpl. rewrite !fetched_urls_app, Hcf,
      (batch_fetched_urls _ _ _ _ _ _ Hb).
    simpl. apply app_nil_r.
  - simpl. rewrite !captions_by_fetch_app, Hcf.
    rewrite (before_batch_no_captions cleanup 0 Hbefore).
    rewrite (batch_fetched_urls _ _ _ _ _ _ Hb). simpl.
    rewrite app_nil_r.
    eapply Forall_impl; [exact (batch_captions_by_fetch _ _ _ _ _ _ Hb)|].
    intros p [Hcap Hk]. split; [exact Hcap|]. simpl in Hk. lia.
  - simpl. rewrite !photo_captions_app, Hcp. simpl. rewrite app_nil_r.
    exact (batch_photo_captions _ _ _ _ _ _ Hb).
Qed.

Lemma delivery_fetches_each_url_once_witness :
  let w' := (get_images three_env 5 three_world).2 in
  get_images three_env 5 three_world = (Returned tt, w')
  /\ fetched_urls (new_events three_world w')
     = ["http://a/1.png"; "http://a/2.png"; "http://a/3.png"]
  /\ captions_by_fetch (new_events three_world w') 0
     = [(1%nat, "Image 1/3"); (3%nat, "Image 3/3")]
  /\ Forall (fun p => p.2 = caption_text (pred p.1) 3
                      /\ (1 <= p.1 <= 3)%nat)
       (captions_by_fetch (new_events three_world w') 0).
Proof.
  split; [now vm_compute|].
  destruct (delivery_fetches_each_url_once three_env 5 three_world
              (get_images three_env 5 three_world).2 "K1" three_doc
              ["http://a/1.png"; "http://a/2.png"; "http://a/3.png"])
    as (Hf & Hc & _);
    [reflexivity|reflexivity|reflexivity|discriminate|now vm_compute|].
  split; [exact Hf|]. split; [now vm_compute|exact Hc].
Defined.

(** ** What the handlers keep, whatever happens *)

Lemma lookups_le_one (r : option user_doc) (key : string)
    (evs : list event) :
  Forall not_lookup evs -> lookups (EvFindOne key r :: evs) = 1%nat.
Proof.
  intros Hq. change (EvFindOne key r :: evs) with ([EvFindOne key r] ++ evs)%list.
  now rewrite lookups_app, (lookups_quiet evs Hq).
Qed.

(** [get_images] in every outcome: the trace grows, by at most one lookup,
    and the frame is kept. *)
Lemma get_images_evolves (E : env) (chat_id : Z) (w : world) :
  exists evs,
    trace (get_images E chat_id w).2 = (trace w ++ evs)%list
    /\ (lookups evs <= 1)%nat
    /\ frame (session (get_images E chat_id w).2) = frame (session w).
Proof.
  destruct (activation_key (session w)) as [key|] eqn:Hkey.
  - destruct (get_images_one_lookup E chat_id w key Hkey)
      as (r & evs & Ht & Hq & Hf).
    exists (EvFindOne key r :: evs). split; [exact Ht|].
    split; [|exact Hf]. now rewrite (lookups_le_one r key evs Hq).
  - destruct (get_images_expired E chat_id w Hkey) as (r & ->).
    eexists. split; [reflexivity|]. split; [|reflexivity].
    unfold lookups. simpl. lia.
Qed.

(** X11.  Whatever the store, the transport and the content server do, and
    whether it returns or raises, [get_images] asks the record store at most
    once and changes nothing in the session but the list of message ids:
    the key, the user's id and name, the cached record and the login time
    are as before. *)
Theorem get_images_touches_only_ids (E : env) (chat_id : Z) (w : world) :
  let w' := (get_images E chat_id w).2 in
  (lookups (new_events w w') <= 1)%nat
  /\ activation_key (session w') = activation_key (session w)
  /\ user_id (session w') = user_id (session w)
  /\ user_name (session w') = user_name (session w)
  /\ user_data (session w') = user_data (session w)
  /\ last_updated (session w') = last_updated (session w).
Proof.
  cbn zeta. destruct (get_images_evolves E chat_id w) as (evs & Ht & Hl & Hf).
  rewrite (new_events_app _ _ _ Ht). split; [exact Hl|].
  unfold frame in Hf. now inversion Hf.
Qed.

Lemma refresh_images_notice_failed (E : env) (chat_id : Z) (w : world)
    (key : string) (doc : user_doc) (e : exn) :
  activation_key (session w) = Some key ->
  collection_find_one E (trace w) key = Some doc ->
  links_of (Some doc) <> links_of (user_data (session w)) ->
  query_edit_message_text E (trace w ++ [EvFindOne key (Some doc)])
    found_new_text [] = Raised e ->
  refresh_images E chat_id w
    = (Raised e,
       {| session := set_user_data doc (session w);
          trace := trace w
                   ++ [EvFindOne key (Some doc);
                       EvEditMessageText found_new_text [] (Raised e)] |}).
Proof.
  intros Hkey Hfind Hdiff Hnotice.
  unfold refresh_images, mbind at 1 2, M_bind at 1 2, get_session, find_one,
    ask.
  rewrite Hkey, Hfind.
  unfold mbind at 1, M_bind at 1, modify_session.
  change (default [] (image_links doc)) with (links_of (Some doc)).
  change (default [] (user_data (session w) ≫= λ old, image_links old))
    with (links_of (user_data (session w))).
  rewrite (changed_true _ _ Hdiff).
  unfold mbind at 1, M_bind at 1, edit_message_text, call.
  cbn [log_event trace session]. rewrite Hnotice.
  unfold log_event. cbn [trace session]. now rewrite <- ?app_assoc.
Qed.

(** A refresh that finds a record, in every outcome: the record is cached,
    the rest of the frame is kept, there are at most two lookups, and the
    first two calls are the lookup and one of the two notices. *)
Lemma refresh_images_found_evolves (E : env) (chat_id : Z) (w : world)
    (key : string) (doc : user_doc) :
  activation_key (session w) = Some key ->
  collection_find_one E (trace w) key = Some doc ->
  exists text markup r evs,
    trace (refresh_images E chat_id w).2
      = (trace w
         ++ EvFindOne key (Some doc) :: EvEditMessageText text markup r :: evs)%list
    /\ (text = if changed (links_of (user_data (session w)))
                    (links_of (Some doc))
               then found_new_text else up_to_date_text)
    /\ (lookups evs <= 1)%nat
    /\ frame (session (refresh_images E chat_id w).2)
       = frame (set_user_data doc (session w)).
Proof.
  intros Hkey Hfind.
  destruct (decide (links_of (Some doc) = links_of (user_data (session w))))
    as [Hsame|Hdiff].
  - destruct (refresh_images_unchanged E chat_id w key doc Hkey Hfind Hsame)
      as (r & ->).
    exists up_to_date_text, full_keyboard, r, [].
    rewrite (changed_false _ _ Hsame). repeat split. unfold lookups. simpl. lia.
  - rewrite (changed_true _ _ Hdiff).
    destruct (query_edit_message_text E
                (trace w ++ [EvFindOne key (Some doc)]) found_new_text [])
      as [notice|e] eqn:Hnotice.
    + destruct (refresh_images_changed E chat_id w key doc notice
                  Hkey Hfind Hdiff Hnotice) as (cleanup & Hc & _ & ->).
      match goal with
      | |- context [get_images E chat_id ?w1] =>
          destruct (get_images_evolves E chat_id w1) as (evs & Ht & Hl & Hf)
      end.
      exists found_new_text, [], (Returned notice), (cleanup ++ evs)%list.
      split; [rewrite Ht; cbn [trace]; now rewrite <- !app_assoc|].
      split; [reflexivity|]. split.
      * rewrite lookups_app, (lookups_quiet cleanup); [exact Hl|].
        eapply Forall_impl; [exact Hc|apply cleanup_not_lookup].
      * rewrite Hf. cbn [session]. apply frame_after_cleanup.
    + rewrite (refresh_images_notice_failed E chat_id w key doc e
                 Hkey Hfind Hdiff Hnotice).
      exists found_new_text, [], (Raised e), [].
      repeat split. unfold lookups. simpl. lia.
Qed.

(** X12.  Whatever happens, [refresh_images] asks the record store at most
    twice, never changes the key, the user's id and name or the login time,
    and leaves as cached record either the one that was cached or the one
    its first lookup found. *)
Theorem refresh_images_keeps_login (E : env) (chat_id : Z) (w : world) :
  let w' := (refresh_images E chat_id w).2 in
  (lookups (new_events w w') <= 2)%nat
  /\ activation_key (session w') = activation_key (session w)
  /\ user_id (session w') = user_id (session w)
  /\ user_name (session w') = user_name (session w)
  /\ last_updated (session w') = last_updated (session w)
  /\ (user_data (session w') = user_data (session w)
      \/ exists key,
           activation_key (session w) = Some key
           /\ user_data (session w') = collection_find_one E (trace w) key).
Proof.
  cbn zeta. destruct (activation_key (session w)) as [key|] eqn:Hkey.
  - destruct (collection_find_one E (trace w) key) as [doc|] eqn:Hfind.
    + destruct (refresh_images_found_evolves E chat_id w key doc Hkey Hfind)
        as (text & markup & r & evs & Ht & _ & Hl & Hf).
      rewrite (new_events_app _ _ _ Ht).
      unfold frame in Hf. inversion Hf as [[Ha Hb Hc Hd He]].
      cbn [set_user_data activation_key user_id user_name user_data
             last_updated] in *.
      rewrite Ha, Hb, Hc, He. repeat split.
      * unfold lookups in *. simpl. lia.
      * exact Hkey.
      * right. exists key. split; [reflexivity|]. now rewrite Hfind.
    + destruct (refresh_images_revoked E chat_id w key Hkey Hfind) as (r & ->).
      erewrite new_events_app by reflexivity. cbn [session].
      repeat split; [unfold lookups; simpl; lia|exact Hkey|now left].
  - destruct (refresh_images_expired E chat_id w Hkey) as (r & ->).
    erewrite new_events_app by reflexivity. cbn [session].
    repeat split; [unfold lookups; simpl; lia|exact Hkey|now left].
Qed.

(** ** How the handlers follow one another *)

Lemma logout_command_clears (E : env) (chat_id : Z) (w : world) :
  session (logout_command E chat_id w).2 = cleared.
Proof.
  unfold logout_command, mbind, M_bind, modify_session,
    clear_previous_images, get_session, reply_text, call, log_event.
  simpl. now destruct (message_reply_text E _ _ _).
Qed.

Lemma end_session_clears (E : env) (chat_id : Z) (w : world) :
  session (end_session E chat_id w).2 = cleared.
Proof.
  unfold end_session, mbind, M_bind, modify_session,
    clear_previous_images, get_session, edit_message_text, call, log_event.
  simpl. now destruct (query_edit_message_text E _ _ _).
Qed.

(** X13.  After a logout, by the command or by the button and whether or
    not its confirmation went out, the session is empty and the next
    [get_images] or [refresh_images] is turned away with the
    session-expired notice, without a look at the record store. *)
Theorem logout_then_session_expired (E : env) (chat_id : Z) (w : world) :
  forall w1,
    w1 = (logout_command E chat_id w).2 \/ w1 = (end_session E chat_id w).2 ->
    session w1 = cleared
    /\ (exists r,
           new_events w1 (get_images E chat_id w1).2
             = [EvEditMessageText expired_text [] r])
    /\ (exists r,
           new_events w1 (refresh_images E chat_id w1).2
             = [EvEditMessageText expired_text [] r]).
Proof.
  intros w1 Hw1.
  assert (session w1 = cleared) as Hs.
  { destruct Hw1 as [-> | ->];
      [apply logout_command_clears|apply end_session_clears]. }
  assert (activation_key (session w1) = None) as Hkey by now rewrite Hs.
  split; [exact Hs|]. split.
  - destruct (get_images_expired E chat_id w1 Hkey) as (r & ->).
    exists r. now apply new_events_app.
  - destruct (refresh_images_expired E chat_id w1 Hkey) as (r & ->).
    exists r. now apply new_events_app.
Qed.

Lemma logout_then_session_expired_witness :
  let w1 := (logout_command three_env 5 three_world).2 in
  session w1 = cleared
  /\ new_events w1 (get_images three_env 5 w1).2
     = [EvEditMessageText expired_text [] (Returned 1)].
Proof.
  destruct (logout_then_session_expired three_env 5 three_world
              (logout_command three_env 5 three_world).2)
    as (Hs & _ & _); [now left|].
  split; [exact Hs|now vm_compute].
Defined.

(** X16.  [cancel] answers and ends the conversation without touching the
    session.  A key that [validate_key] has just turned down therefore
    stays in the session after a cancel, and the next [get_images] looks
    that key up instead of reporting an expired session. *)
Theorem cancel_keeps_rejected_key (E : env) (chat_id : Z) (text : string)
    (w : world) :
  let w1 := (validate_key E text w).2 in
  let w2 := (cancel E w1).2 in
  session w2 = session w1
  /\ activation_key (session w2) = Some (strip text)
  /\ (exists a, new_events w1 w2 = [EvReplyText cancelled_text [] a]
                /\ (cancel E w1).1 = match a with
                                     | Returned _ => Returned END
                                     | Raised e => Raised e
                                     end)
  /\ exists r evs,
       new_events w2 (get_images E chat_id w2).2
         = EvFindOne (strip text) r :: evs.
Proof.
  cbn zeta.
  assert (activation_key (session (validate_key E text w).2)
          = Some (strip text)) as Hkey.
  { unfold validate_key, mbind, M_bind, modify_session, find_one, now, ask,
      get_session, reply_text, call, log_event.
    simpl. destruct (collection_find_one E (trace w) (strip text)); simpl;
      now destruct (message_reply_text E _ _ _). }
  set (w1 := (validate_key E text w).2) in *.
  assert (exists a,
             cancel E w1
               = (match a with
                  | Returned _ => Returned END
                  | Raised e => Raised e
                  end,
                  log_event (EvReplyText cancelled_text [] a) w1))
    as (a & Hc).
  { unfold cancel, mbind, M_bind, reply_text, call.
    destruct (message_reply_text E (trace w1) cancelled_text []) as [mid|e]
      eqn:Ha; [exists (Returned mid)|exists (Raised e)]; reflexivity. }
  rewrite Hc. cbn [fst snd log_event session].
  split; [reflexivity|]. split; [exact Hkey|]. split.
  - exists a. split; [now apply new_events_app|reflexivity].
  - match goal with
    | |- context [get_images E chat_id ?w2] =>
        destruct (get_images_one_lookup E chat_id w2 (strip text) Hkey)
          as (r & evs & Ht & _ & _)
    end.
    exists r, evs. now apply new_events_app.
Qed.

(** ** Edge cases *)

Lemma filter_today_key_error (today : string) (pre post : list image_entry)
    (d : gmap string string) :
  Forall dated_has_url pre ->
  d !! "date" = Some today ->
  d !! "url" = None ->
  forall acc,
    filter_today today (pre ++ ImgDict d :: post) acc = Raised "'url'".
Proof.
  intros Hpre Hdate Hurl.
  induction Hpre as [|img pre Himg _ IH]; intros acc.
  - simpl. now rewrite Hdate, bool_decide_eq_true_2, Hurl.
  - destruct img as [s|d'|r]; simpl; try apply IH.
    case_bool_decide as Hd'; [|apply IH].
    destruct Himg as [u ->]; [now rewrite Hd'|]. apply IH.
Qed.

(** X14.  An entry dated today that has no ['url'] makes [get_images] raise
    [KeyError] right after it has read the clock, whatever comes before or
    after the entry in the list: nothing is deleted, fetched or sent, the
    message is not edited, and the session is as it was. *)
Theorem dated_entry_without_url_aborts (E : env) (chat_id : Z) (w : world)
    (key : string) (doc : user_doc) (pre post : list image_entry)
    (d : gmap string string) :
  activation_key (session w) = Some key ->
  collection_find_one E (trace w) key = Some doc ->
  image_links doc = Some (pre ++ ImgDict d :: post)%list ->
  Forall dated_has_url pre ->
  d !! "date"
    = Some (strftime_ymd
              (datetime_now E (trace w ++ [EvFindOne key (Some doc)]))) ->
  d !! "url" = None ->
  get_images E chat_id w
    = (Raised "'url'",
       {| session := session w;
          trace := trace w
                   ++ [EvFindOne key (Some doc);
                       EvNow (datetime_now E
                                (trace w ++ [EvFindOne key (Some doc)]))] |}).
Proof.
  intros Hkey Hfind Hdoc Hpre Hdate Hurl.
  rewrite (get_images_found E chat_id w key doc Hkey Hfind).
  rewrite (deliver_doc_links E chat_id doc _ _ Hdoc) by now destruct pre.
  cbn [log_event trace session].
  rewrite (filter_today_key_error _ pre post d Hpre Hdate Hurl).
  unfold log_event. cbn [trace session]. now rewrite <- app_assoc.
Qed.

Lemma dated_entry_without_url_aborts_witness :
  (activation_key (session broken_world) = Some "K1"
   /\ collection_find_one broken_env (trace broken_world) "K1"
      = Some broken_doc)
  /\ get_images broken_env 5 broken_world
     = (Raised "'url'",
        {| session := session broken_world;
           trace := [EvFindOne "K1" (Some broken_doc); EvNow day1] |}).
Proof.
  split; [now vm_compute|].
  apply (dated_entry_without_url_aborts broken_env 5 broken_world "K1"
           broken_doc [ImgStr "http://a/1.png"] [ImgStr "http://a/3.png"]
           {[ "date" := "2024-01-01" ]});
    try reflexivity.
  now repeat constructor.
Defined.

(** X15.  The test by which [refresh_images] decides that the images
    changed holds exactly when the two sequences differ: the comparison of
    lengths adds nothing to the comparison of the lists.  The comparison is
    sensitive to order: two different entries swapped count as a change. *)
Theorem changed_iff_sequences_differ :
  (forall old_images new_images : list image_entry,
      changed old_images new_images = bool_decide (new_images ≠ old_images))
  /\ (forall a b : image_entry, a <> b -> changed [a; b] [b; a] = true).
Proof.
  assert (forall old_images new_images : list image_entry,
             changed old_images new_images
             = bool_decide (new_images ≠ old_images)) as Hiff.
  { intros old_images new_images. unfold changed.
    destruct (decide (new_images = old_images)) as [->|Hne].
    - now rewrite !bool_decide_eq_false_2 by (intros H; now apply H).
    - rewrite (bool_decide_eq_true_2 (new_images ≠ old_images)) by exact Hne.
      apply orb_true_r. }
  split; [exact Hiff|].
  intros a b Hab. rewrite Hiff. apply bool_decide_eq_true_2. congruence.
Qed.

(** X17.  [button_handler] answers the callback query first.  If that
    answer fails nothing else happens, whatever the button; and a button it
    does not know is answered and otherwise ignored: no lookup, no message,
    no change to the session. *)
Theorem button_handler_answers_first (E : env) (chat_id : Z) (data : string)
    (w : world) :
  (forall e,
      query_answer E (trace w) = Raised e ->
      button_handler E chat_id data w
        = (Raised e, log_event (EvAnswer (Raised e)) w))
  /\ (data <> "get_images" -> data <> "refresh_images" -> data <> "logout" ->
      button_handler E chat_id data w
        = (query_answer E (trace w),
           log_event (EvAnswer (query_answer E (trace w))) w)).
Proof.
  split.
  - intros e He. unfold button_handler, mbind, M_bind, answer, call.
    now rewrite He.
  - intros H1 H2 H3. unfold button_handler, mbind, M_bind, answer, call.
    rewrite !bool_decide_eq_false_2 by assumption.
    now destruct (query_answer E (trace w)) as [[]|e].
Qed.

Lemma button_handler_answers_first_witness :
  query_answer deaf_env (trace three_world) = Raised "Query is too old"
  /\ button_handler deaf_env 5 "get_images" three_world
     = (Raised "Query is too old",
        log_event (EvAnswer (Raised "Query is too old")) three_world)
  /\ button_handler three_env 5 "help" three_world
     = (Returned tt, log_event (EvAnswer (Returned tt)) three_world).
Proof.
  split; [reflexivity|]. split.
  - now apply (proj1 (button_handler_answers_first deaf_env 5 "get_images"
                        three_world)).
  - now apply (proj2 (button_handler_answers_first three_env 5 "help"
                        three_world)).
Defined.

(** ** Refreshing again, and refreshing after a delivery *)

(** X18.  Whatever a refresh that found a record went on to do, a second
    refresh that finds the same image links reports that nothing is new:
    its only calls are the lookup and that notice, and it deletes and sends
    nothing. *)
Theorem refresh_again_is_up_to_date (E : env) (chat_id : Z) (w : world)
    (key : string) (doc doc2 : user_doc) :
  activation_key (session w) = Some key ->
  collection_find_one E (trace w) key = Some doc ->
  let w1 := (refresh_images E chat_id w).2 in
  collection_find_one E (trace w1) key = Some doc2 ->
  links_of (Some doc2) = links_of (Some doc) ->
  let w2 := (refresh_images E chat_id w1).2 in
  session w2 = set_user_data doc2 (session w1)
  /\ exists r,
       new_events w1 w2
         = [EvFindOne key (Some doc2);
            EvEditMessageText up_to_date_text full_keyboard r].
Proof.
  intros Hkey Hfind w1 Hfind2 Hsame w2.
  destruct (refresh_images_found_evolves E chat_id w key doc Hkey Hfind)
    as (text & markup & r & evs & _ & _ & _ & Hf).
  fold w1 in Hf. unfold frame in Hf. inversion Hf as [[Ha Hb Hc Hd He]].
  cbn [set_user_data activation_key user_data] in Ha, Hd.
  assert (activation_key (session w1) = Some key) as Hkey1
    by (etransitivity; [exact Ha|exact Hkey]).
  assert (links_of (Some doc2) = links_of (user_data (session w1))) as Hsame1
    by now rewrite Hd.
  destruct (refresh_images_unchanged E chat_id w1 key doc2 Hkey1 Hfind2 Hsame1)
    as (r2 & Heq).
  subst w2. rewrite Heq. cbn [session]. split; [reflexivity|].
  exists r2. now apply new_events_app.
Qed.

Lemma refresh_again_is_up_to_date_witness :
  let w1 := (refresh_images stale_env 5 stale_world).2 in
  let w2 := (refresh_images stale_env 5 w1).2 in
  (activation_key (session stale_world) = Some "K1"
   /\ collection_find_one stale_env (trace stale_world) "K1" = Some new_doc
   /\ collection_find_one stale_env (trace w1) "K1" = Some new_doc)
  /\ session w2 = set_user_data new_doc (session w1)
  /\ exists r,
       new_events w1 w2
         = [EvFindOne "K1" (Some new_doc);
            EvEditMessageText up_to_date_text full_keyboard r].
Proof.
  split; [now vm_compute|].
  apply (refresh_again_is_up_to_date stale_env 5 stale_world "K1" new_doc
           new_doc); reflexivity.
Defined.

(** X19.  [get_images] does not bring the cached record up to date, so a
    refresh that follows it still compares the store with what was cached
    before the delivery: if the record in the store has other image links
    than that cached record, the refresh announces new images, whatever the
    delivery has just sent. *)
Theorem refresh_after_delivery_uses_old_cache (E : env) (chat_id : Z)
    (w : world) (key : string) (doc : user_doc) :
  activation_key (session w) = Some key ->
  let w1 := (get_images E chat_id w).2 in
  collection_find_one E (trace w1) key = Some doc ->
  links_of (Some doc) <> links_of (user_data (session w)) ->
  exists r evs,
    new_events w1 (refresh_images E chat_id w1).2
      = EvFindOne key (Some doc)
          :: EvEditMessageText found_new_text [] r :: evs.
Proof.
  intros Hkey w1 Hfind Hdiff.
  destruct (get_images_evolves E chat_id w) as (evs0 & _ & _ & Hf).
  fold w1 in Hf. unfold frame in Hf. inversion Hf as [[Ha Hb Hc Hd He]].
  assert (activation_key (session w1) = Some key) as Hkey1
    by (etransitivity; [exact Ha|exact Hkey]).
  destruct (refresh_images_found_evolves E chat_id w1 key doc Hkey1 Hfind)
    as (text & markup & r & evs & Ht & Htext & _ & _).
  rewrite Hd, (changed_true _ _ Hdiff) in Htext. subst text.
  destruct (decide (markup = [])) as [->|Hm].
  - exists r, evs. now apply new_events_app.
  - exfalso. revert Ht.
    destruct (query_edit_message_text E
                (trace w1 ++ [EvFindOne key (Some doc)]) found_new_text [])
      as [notice|e] eqn:Hnotice.
    + assert (links_of (Some doc) <> links_of (user_data (session w1)))
        as Hdiff1 by now rewrite Hd.
      destruct (refresh_images_changed E chat_id w1 key doc notice
                  Hkey1 Hfind Hdiff1 Hnotice) as (cleanup & _ & _ & ->).
      match goal with
      | |- context [get_images E chat_id ?w2] =>
          destruct (get_images_evolves E chat_id w2) as (evs2 & -> & _ & _)
      end.
      cbn [trace]. rewrite <- !app_assoc. intros Heq.
      apply app_inv_head in Heq. simpl in Heq. congruence.
    + assert (links_of (Some doc) <> links_of (user_data (session w1)))
        as Hdiff1 by now rewrite Hd.
      rewrite (refresh_images_notice_failed E chat_id w1 key doc e
                 Hkey1 Hfind Hdiff1 Hnotice).
      cbn [snd trace]. intros Heq.
      apply app_inv_head in Heq. congruence.
Qed.

Lemma refresh_after_delivery_uses_old_cache_witness :
  let w1 := (get_images stale_env 5 stale_world).2 in
  (activation_key (session stale_world) = Some "K1"
   /\ collection_find_one stale_env (trace w1) "K1" = Some new_doc
   /\ links_of (Some new_doc) <> links_of (user_data (session stale_world))
   /\ fetched_urls (trace w1) = ["http://a/1.png"; "http://a/3.png"])
  /\ exists r evs,
       new_events w1 (refresh_images stale_env 5 w1).2
         = EvFindOne "K1" (Some new_doc)
             :: EvEditMessageText found_new_text [] r :: evs.
Proof.
  split; [vm_compute; repeat split; discriminate|].
  apply (refresh_after_delivery_uses_old_cache stale_env 5 stale_world "K1"
           new_doc); [reflexivity|reflexivity|discriminate].
Defined.

(** ** A batch that breaks off *)

Lemma deliver_today_aborted (E : env) (chat_id : Z) (urls : list string)
    (w w' : world) (e : exn) (text : string) :
  urls <> [] ->
  deliver_today E chat_id urls w = (Raised e, w') ->
  last (trace w') = Some (EvSendMessage chat_id text [] (Raised e)) ->
  session w' = after_cleanup (session w).
Proof.
  intros Hne. unfold deliver_today.
  destruct urls as [|url rest]; [contradiction|]. clear Hne.
  set (urls := url :: rest). set (n := length urls).
  unfold mbind at 1, M_bind at 1, edit_message_text, call.
  destruct (query_edit_message_text E (trace w) _ []) as [status|e0] eqn:Hst.
  2:{ intros [= <- <-]. cbn [log_event trace]. intros Hl.
      rewrite last_snoc in Hl. discriminate. }
  set (ev0 := EvEditMessageText _ _ _).
  unfold mbind at 1, M_bind at 1.
  destruct (clear_previous_images_spec E chat_id (log_event ev0 w))
    as (evs1 & -> & _ & _).
  unfold mbind at 1, M_bind at 1.
  match goal with
  | |- context [send_images E chat_id n 0 urls [] ?w1] =>
      destruct (send_images_spec E chat_id n urls 0 [] w1)
        as (evs2 & r & -> & _ & _)
  end.
  destruct r as [ids|e0]; [|now intros [= <- <-]].
  unfold mbind, M_bind, modify_session, delete_message, send_message, call.
  cbn [session trace log_event].
  destruct (bot_delete_message E _ chat_id status) as [[]|e0].
  2:{ intros [= <- <-]. cbn [log_event trace]. intros Hl.
      rewrite last_snoc in Hl. discriminate. }
  destruct (bot_send_message E _ chat_id delivered_text full_keyboard)
    as [ctl|e0]; [discriminate|].
  intros [= <- <-]. cbn [log_event trace]. intros Hl.
  rewrite last_snoc in Hl. discriminate.
Qed.

(** X20.  When a batch breaks off because the error text for a failed item
    could not be sent, [get_images] raises with the session holding no
    message id at all: the ids it held were given up in the cleanup, and
    the ids of the photos and error texts the batch had already sent are
    not kept, so no later cleanup will delete them. *)
Theorem aborted_batch_forgets_its_messages (E : env) (chat_id : Z)
    (w w' : world) (key : string) (doc : user_doc) (urls : list string)
    (e : exn) (text : string) :
  activation_key (session w) = Some key ->
  collection_find_one E (trace w) key = Some doc ->
  resolved E w key doc = Returned urls ->
  urls <> [] ->
  get_images E chat_id w = (Raised e, w') ->
  last (trace w') = Some (EvSendMessage chat_id text [] (Raised e)) ->
  default [] (image_message_ids (session w')) = []
  /\ frame (session w') = frame (session w).
Proof.
  intros Hkey Hfind Hres Hne.
  rewrite (get_images_found E chat_id w key doc Hkey Hfind).
  rewrite (deliver_doc_resolved E chat_id w key doc urls Hres Hne).
  intros Hrun Hlast.
  rewrite (deliver_today_aborted E chat_id urls _ w' e text Hne Hrun Hlast).
  cbn [log_event session]. split; [|apply frame_after_cleanup].
  unfold after_cleanup.
  now destruct (image_message_ids (session w)) as [[|? ?]|] eqn:Hids;
    cbn; rewrite ?Hids.
Qed.

Lemma aborted_batch_forgets_its_messages_witness :
  let r := get_images mute_env 5 mute_world in
  (activation_key (session mute_world) = Some "K1"
   /\ r.1 = Raised "Timed out"
   /\ last (trace r.2)
      = Some (EvSendMessage 5 (failed_text 1 "404 Client Error") []
                (Raised "Timed out"))
   /\ sent_ids (trace r.2) = [6]
   /\ delete_attempts (trace r.2) = [41; 42])
  /\ default [] (image_message_ids (session r.2)) = []
  /\ frame (session r.2) = frame (session mute_world).
Proof.
  split; [now vm_compute|].
  apply (aborted_batch_forgets_its_messages mute_env 5 mute_world _ "K1"
           three_doc ["http://a/1.png"; "http://a/2.png"; "http://a/3.png"]
           "Timed out" (failed_text 1 "404 Client Error"));
    try reflexivity; try discriminate; now vm_compute.
Defined.
